(** * Breakout detector: the classifier and the scan loop of [main.py]

    A shallow embedding of [identify_breakout] and [scan_for_breakouts].

    Conventions of the embedding.
    - A DataFrame is the list of its rows, in positional ([iloc]) order.
    - The numbers of a frame are binary64.  A finite double is written
      as the rational it is ([Q]); a cell that may be NaN is an
      [option Q], [None] standing for NaN.  Input cells are numbers
      (never NaN), as the data contract of the feed has it; NaN only
      arises inside the computation ([shift], [np.maximum], [rolling]).
      Comparison, [abs] and [max] are exact on doubles and are taken on
      the rationals; subtraction, multiplication, the conversion of an
      integer and the rolling mean round, and are taken as an interface
      ([Arith]): nothing is assumed of them, so what is proved holds for
      the machine's operations.  Results that overflow are outside the
      model.
    - A timestamp cell is either the text received from the feed or a
      parsed datetime; [pd.to_datetime] turns the first into the second.
    - [pd.to_datetime] and [DataFrame.sort_values] belong to pandas, not
      to this repository: they are taken as an interface ([Pandas]).
      pandas sorts with an unstable quicksort by default, so the
      interface only promises a sorted permutation.
    - Python exceptions are values of [exn]; a call that may raise
      returns a [result].
    - The scan is handed its two collaborators; they are an interface
      ([Broker]) of which the repository's own connector is one
      implementation ([angel_one]).  What the scan does to the outside
      is kept as a trace of fetches and sleeps.  [time.sleep] is taken
      to return, the token lookup to be a pure function, and logging is
      left out. *)

From Stdlib Require Import String ZArith QArith Qabs Qminmax List Bool Lia.
From Stdlib Require Import Permutation Sorted.
Import ListNotations.

(** ** Exceptions *)

Inductive exn : Type :=
| ValueError    (* pd.to_datetime on text that is no date (pandas'
                   DateParseError and dateutil's ParserError are
                   ValueErrors); rolling(window=...) with
                   min_periods > window *)
| IndexError    (* .iloc[i] out of bounds *)
| FetchError.   (* anything the connector raises *)

Inductive result (A : Type) : Type :=
| Return (a : A)
| Raise (e : exn).
Arguments Return {A} a.
Arguments Raise {A} e.

Definition bind {A B : Type} (r : result A) (k : A -> result B) : result B :=
  match r with
  | Return a => k a
  | Raise e => Raise e
  end.

Notation "x <- e ;; k" := (bind e (fun x => k))
  (at level 61, e at next level, right associativity).

(** ** Data model *)

Inductive tsval : Type :=
| TsText (s : string)   (* as received: a str *)
| TsStamp (t : Z).      (* a pandas Timestamp, as an integer ordered as
                           the instants are *)

Record candle : Type := mkCandle {
  timestamp : tsval;
  open : Q;
  high : Q;
  low : Q;
  close : Q;
  volume : Z
}.

Definition DataFrame : Type := list candle.

(** A float that may be NaN. *)
Definition float : Type := option Q.

(** The operations of binary64 that round.  [f_rolling_mean window s] is
    the value [s.rolling(window, min_periods=1).mean()] has at the last
    position of [s] when a number lies in the last [window] cells; pandas
    keeps a running sum along the series, so the value may depend on all
    of [s], not on the window alone. *)
Class Arith : Type := {
  f_sub : Q -> Q -> Q;
  f_mul : Q -> Q -> Q;
  f_of_int : Z -> Q;
  f_rolling_mean : nat -> list float -> Q
}.

Definition with_timestamp (c : candle) (t : tsval) : candle :=
  mkCandle t (open c) (high c) (low c) (close c) (volume c).

(** The sort key of a row once its timestamp is a datetime.  Text cells
    never reach the sort: line 168 has replaced them all. *)
Definition stamp (c : candle) : Z :=
  match timestamp c with
  | TsStamp t => t
  | TsText _ => 0%Z
  end.

Definition stamp_le (a b : candle) : Prop := (stamp a <= stamp b)%Z.

(** ** The pandas interface *)

Class Pandas : Type := {
  (** the instant a text denotes; [None] when pandas raises *)
  parse_datetime : string -> option Z;
  (** [df.sort_values('timestamp')]: a new frame *)
  sort_values : DataFrame -> DataFrame;
  sort_values_perm : forall df, Permutation (sort_values df) df;
  sort_values_sorted : forall df, Sorted stamp_le (sort_values df)
}.

(** ** Series operations *)

Definition column {A : Type} (f : candle -> A) (df : DataFrame) : list A :=
  map f df.

Definition fcolumn (f : candle -> Q) (df : DataFrame) : list float :=
  map (fun c => Some (f c)) df.

(** [s.iloc[i]], negative positions counting from the end. *)
Definition iloc {A : Type} (s : list A) (i : Z) : result A :=
  let n := Z.of_nat (length s) in
  let j := if (i <? 0)%Z then (n + i)%Z else i in
  if ((0 <=? j) && (j <? n))%Z
  then match nth_error s (Z.to_nat j) with
       | Some x => Return x
       | None => Raise IndexError
       end
  else Raise IndexError.

(** [s.shift(1)]: every position receives its predecessor, the first NaN. *)
Fixpoint shift_from (p : float) (s : list float) : list float :=
  match s with
  | [] => []
  | x :: s' => p :: shift_from x s'
  end.

Definition shift (s : list float) : list float := shift_from None s.

(** Element-wise arithmetic; NaN propagates ([np.maximum] included). *)
Definition lift2 (f : Q -> Q -> Q) (a b : float) : float :=
  match a, b with
  | Some x, Some y => Some (f x y)
  | _, _ => None
  end.

Definition zip_with {A B C : Type} (f : A -> B -> C) (a : list A) (b : list B)
  : list C :=
  map (fun p => f (fst p) (snd p)) (combine a b).

Definition col_sub {AR : Arith} : list float -> list float -> list float :=
  zip_with (lift2 f_sub).
Definition np_maximum : list float -> list float -> list float :=
  zip_with (lift2 Qmax).
Definition col_abs : list float -> list float := map (option_map Qabs).

(** The observations a rolling window sees at position [i]: the last
    [window] cells up to and including [i]. *)
Definition window_at {A : Type} (window : nat) (s : list A) (i : nat) : list A :=
  skipn (S i - window) (firstn (S i) s).

(** The non-NaN observations: rolling aggregations skip NaN. *)
Fixpoint valid (obs : list float) : list Q :=
  match obs with
  | [] => []
  | Some q :: obs' => q :: valid obs'
  | None :: obs' => valid obs'
  end.

(** One cell of a rolling aggregate: NaN below [min_periods] non-NaN
    observations. *)
Definition rolling_cell (window min_periods : nat) (agg : list Q -> Q)
  (s : list float) (i : nat) : float :=
  let obs := valid (window_at window s i) in
  if (length obs <? min_periods)%nat then None else Some (agg obs).

(** [s.rolling(window, min_periods).agg()].  pandas rejects a window
    smaller than [min_periods] (and a negative one) with ValueError. *)
Definition rolling (window : Z) (min_periods : nat) (agg : list Q -> Q)
  (s : list float) : result (list float) :=
  if (window <? Z.of_nat min_periods)%Z then Raise ValueError
  else Return (map (rolling_cell (Z.to_nat window) min_periods agg s)
                   (seq 0 (length s))).

Definition Qsum (l : list Q) : Q := fold_left Qplus l 0%Q.

Definition agg_max (obs : list Q) : Q :=
  match obs with
  | [] => 0%Q
  | x :: obs' => fold_left Qmax obs' x
  end.

(** The mean without rounding. *)
Definition agg_mean (obs : list Q) : Q :=
  (Qsum obs / inject_Z (Z.of_nat (length obs)))%Q.

(** One cell of a rolling mean: NaN below [min_periods] non-NaN
    observations in the window, else what binary64 makes of the series
    up to there. *)
Definition rolling_mean_cell {AR : Arith} (window min_periods : nat)
  (s : list float) (i : nat) : float :=
  let obs := valid (window_at window s i) in
  if (length obs <? min_periods)%nat then None
  else Some (f_rolling_mean window (firstn (S i) s)).

(** [s.rolling(window, min_periods).mean()]. *)
Definition rolling_mean {AR : Arith} (window : Z) (min_periods : nat)
  (s : list float) : result (list float) :=
  if (window <? Z.of_nat min_periods)%Z then Raise ValueError
  else Return (map (rolling_mean_cell (Z.to_nat window) min_periods s)
                   (seq 0 (length s))).

(** Python's [a > b] on floats: false as soon as one side is NaN. *)
Definition gt (a b : float) : bool :=
  match a, b with
  | Some x, Some y => negb (Qle_bool x y)
  | _, _ => false
  end.

Definition notna (a : float) : bool :=
  match a with Some _ => true | None => false end.

(** ** The verdict *)

(** The [details] dict, when it is not empty. *)
Record metrics : Type := mkMetrics {
  current_close : Q;
  previous_high : float;
  breakout_size : float;
  atr : float;
  current_volume : Z;
  avg_volume : float
}.

(** [(is_breakout, breakout_type, details)]; [None] is the empty dict. *)
Definition verdict : Type := (bool * string * option metrics)%type.

Definition InsufficientData : string := "Insufficient Data".
Definition NoBreakout : string := "No Breakout".
Definition FullBreakout : string := "Full Breakout".
Definition PartialBreakoutLowVolume : string := "Partial Breakout - Low Volume".
Definition PartialBreakoutSmallSize : string := "Partial Breakout - Small Size".

(** The true range of a candle whose predecessor closed at [prev_close]. *)
Definition true_range_of {AR : Arith} (prev_close : Q) (c : candle) : Q :=
  Qmax (f_sub (high c) (low c))
       (Qmax (Qabs (f_sub (high c) prev_close)) (Qabs (f_sub (low c) prev_close))).

(** The true ranges of the rows of [df], the first preceded by a close
    at [prev_close]. *)
Fixpoint true_ranges_from {AR : Arith} (prev_close : Q) (df : DataFrame)
  : list Q :=
  match df with
  | [] => []
  | c :: df' => true_range_of prev_close c :: true_ranges_from (close c) df'
  end.

(** The true ranges the frame really has: none for the first row. *)
Definition defined_true_ranges {AR : Arith} (df : DataFrame) : list Q :=
  match df with
  | [] => []
  | c :: df' => true_ranges_from (close c) df'
  end.

(** The true ranges and the ATR in the specification's words: the first
    candle's true range is [high - low], and the ATR at the last position
    is the rolling mean of these true ranges over 14 candles. *)
Definition claimed_true_ranges {AR : Arith} (df : DataFrame) : list Q :=
  match df with
  | [] => []
  | c :: df' => f_sub (high c) (low c) :: true_ranges_from (close c) df'
  end.

Definition claimed_atr {AR : Arith} (df : DataFrame) : Q :=
  f_rolling_mean 14 (map Some (claimed_true_ranges df)).

(** Everything of a row but its timestamp. *)
Definition prices (c : candle) : Q * Q * Q * Q * Z :=
  (open c, high c, low c, close c, volume c).

Definition is_datetime (c : candle) : Prop :=
  exists t, timestamp c = TsStamp t.

Definition stamp_lt (a b : candle) : Prop := (stamp a < stamp b)%Z.

Definition verdict_category (r : result verdict) : option string :=
  match r with
  | Return (_, category, _) => Some category
  | Raise _ => None
  end.

Definition verdict_details (r : result verdict) : option metrics :=
  match r with
  | Return (_, _, details) => details
  | Raise _ => None
  end.

(** ** identify_breakout *)

Section Classifier.
Context {PD : Pandas} {AR : Arith}.

Definition to_datetime1 (v : tsval) : option tsval :=
  match v with
  | TsStamp t => Some (TsStamp t)
  | TsText s => option_map TsStamp (parse_datetime s)
  end.

(** [pd.to_datetime(series)]: [None] when a cell does not parse. *)
Fixpoint to_datetime (s : list tsval) : option (list tsval) :=
  match s with
  | [] => Some []
  | v :: s' =>
      match to_datetime1 v, to_datetime s' with
      | Some t, Some ts => Some (t :: ts)
      | _, _ => None
      end
  end.

(** [df['timestamp'] = col], in place. *)
Fixpoint assign_timestamp (df : DataFrame) (col : list tsval) : DataFrame :=
  match df, col with
  | c :: df', t :: col' => with_timestamp c t :: assign_timestamp df' col'
  | _, _ => []
  end.

(** [df['tr']], lines 180-182. *)
Definition true_range (df : DataFrame) : list float :=
  let prev_close := shift (fcolumn close df) in
  np_maximum (col_sub (fcolumn high df) (fcolumn low df))
             (np_maximum (col_abs (col_sub (fcolumn high df) prev_close))
                         (col_abs (col_sub (fcolumn low df) prev_close))).

(** [df['highest_high']], line 170. *)
Definition highest_high (df : DataFrame) (lookback : Z) : result (list float) :=
  rolling lookback 1 agg_max (fcolumn high df).

(** [df['atr']], line 183: pandas' rolling mean, in binary64. *)
Definition atr_column (df : DataFrame) : result (list float) :=
  rolling_mean 14 1 (true_range df).

(** [df['volume'].rolling(window=lookback, min_periods=1).mean()], line 189. *)
Definition avg_volume_column (df : DataFrame) (lookback : Z)
  : result (list float) :=
  rolling_mean lookback 1 (fcolumn (fun c => f_of_int (volume c)) df).

(** Lines 170-213, on the sorted local frame. *)
Definition analyse (df : DataFrame) (lookback : Z) : result verdict :=
  hh <- highest_high df lookback ;;
  current_close <- iloc (column close df) (-1) ;;
  previous_high <- iloc hh (-2) ;;
  if notna previous_high && gt (Some current_close) previous_high then
    atr_col <- atr_column df ;;
    atr <- iloc atr_col (-1) ;;
    let breakout_size := lift2 f_sub (Some current_close) previous_high in
    vol_col <- avg_volume_column df lookback ;;
    avg_volume <- iloc vol_col (-1) ;;
    current_volume <- iloc (column volume df) (-1) ;;
    let details :=
      mkMetrics current_close previous_high breakout_size atr
                current_volume avg_volume in
    if gt breakout_size atr then
      if gt (Some (f_of_int current_volume))
            (lift2 f_mul (Some (3 # 2)) avg_volume)
      then Return (true, FullBreakout, Some details)
      else Return (true, PartialBreakoutLowVolume, Some details)
    else Return (true, PartialBreakoutSmallSize, Some details)
  else Return (false, NoBreakout, None).

(** The call as the caller sees it: what is returned or raised, and the
    caller's frame afterwards.  Line 168 writes the parsed column into
    the caller's frame; line 169 rebinds [df] to a new sorted frame, so
    the later column assignments do not reach the caller. *)
Definition identify_breakout (df : DataFrame) (lookback : Z)
  : result verdict * DataFrame :=
  if (Z.of_nat (length df) <? lookback)%Z
  then (Return (false, InsufficientData, None), df)
  else match to_datetime (column timestamp df) with
       | None => (Raise ValueError, df)
       | Some col =>
           let df' := assign_timestamp df col in
           (analyse (sort_values df') lookback, df')
       end.

(** The instant a timestamp cell stands for, whatever its form. *)
Definition instant (v : tsval) : option Z :=
  match v with
  | TsStamp t => Some t
  | TsText s => parse_datetime s
  end.

(** Line 168 row by row: the row with its timestamp parsed. *)
Definition parse_row (c : candle) : option candle :=
  option_map (with_timestamp c) (to_datetime1 (timestamp c)).

Fixpoint parse_rows (df : DataFrame) : option DataFrame :=
  match df with
  | [] => Some []
  | c :: df' =>
      match parse_row c, parse_rows df' with
      | Some c', Some p => Some (c' :: p)
      | _, _ => None
      end
  end.

(** The frame lines 170-213 work on: every timestamp parsed (line 168),
    then sorted (line 169).  [None] when line 168 raises. *)
Definition sorted_frame (df : DataFrame) : option DataFrame :=
  option_map sort_values (parse_rows df).

(** The quantities the verdict is built from, read off a frame. *)
Definition current_close_at (df : DataFrame) : result Q :=
  iloc (column close df) (-1).
Definition previous_high_at (df : DataFrame) (lookback : Z) : result float :=
  hh <- highest_high df lookback ;; iloc hh (-2).
Definition atr_at (df : DataFrame) : result float :=
  col <- atr_column df ;; iloc col (-1).
Definition avg_volume_at (df : DataFrame) (lookback : Z) : result float :=
  col <- avg_volume_column df lookback ;; iloc col (-1).
Definition current_volume_at (df : DataFrame) : result Z :=
  iloc (column volume df) (-1).

End Classifier.

(** ** scan_for_breakouts *)

(** One dict of [breakout_stocks]:
    [{"symbol": symbol, "breakout_type": breakout_type, **details}]. *)
Record stock : Type := mkStock {
  stock_symbol : string;
  stock_breakout_type : string;
  stock_details : option metrics
}.

(** What the scan does to the outside, in order. *)
Inductive event : Type :=
| Fetch (token : string)   (* connector.get_historical_data(token, ...) *)
| Sleep (seconds : Z).     (* time.sleep(seconds) *)

(** The two collaborators handed to the scan.  The connector answers
    from a state of its own (the network, the clock that fixes the
    30-day range): it raises, returns None, or returns a frame. *)
Class Broker : Type := {
  World : Type;
  (** [None] also stands for a falsy token *)
  get_symbol_token : string -> option string;
  get_historical_data : string -> World -> result (option DataFrame) * World
}.

(** Reading a trace. *)
Definition fetches (tr : list event) : nat :=
  length (filter (fun e => match e with Fetch _ => true | Sleep _ => false end) tr).

Fixpoint sleeps (tr : list event) : list Z :=
  match tr with
  | [] => []
  | Sleep d :: tr' => d :: sleeps tr'
  | Fetch _ :: tr' => sleeps tr'
  end.

(** The sleeps that come before the last fetch of a trace. *)
Fixpoint sleeps_before_last_fetch (tr : list event) : list Z :=
  match tr with
  | [] => []
  | e :: tr' =>
      if (0 <? fetches tr')%nat
      then match e with
           | Sleep d => d :: sleeps_before_last_fetch tr'
           | Fetch _ => sleeps_before_last_fetch tr'
           end
      else []
  end.

Section Scan.
Context {PD : Pandas} {AR : Arith} {BR : Broker}.

(** The locals of [scan_for_breakouts] and the outside it acts on. *)
Record ScanState : Type := mkScan {
  world : World;
  breakout_stocks : list stock;
  delay : Z;
  trace : list event
}.

(** A statement: it may raise, and what it did before raising stays. *)
Definition M (A : Type) : Type := ScanState -> result A * ScanState.

Definition ret {A : Type} (a : A) : M A := fun s => (Return a, s).

Definition bindM {A B : Type} (m : M A) (k : A -> M B) : M B :=
  fun s =>
    match m s with
    | (Return a, s') => k a s'
    | (Raise e, s') => (Raise e, s')
    end.

Notation "x <~ e ;; k" := (bindM e (fun x => k))
  (at level 61, e at next level, right associativity).

(** [try: body except Exception: handler]. *)
Definition try_except {A : Type} (body : M A) (handler : exn -> M A) : M A :=
  fun s =>
    match body s with
    | (Return a, s') => (Return a, s')
    | (Raise e, s') => handler e s'
    end.

Definition lift {A : Type} (r : result A) : M A := fun s => (r, s).

Definition fetch (token : string) : M (option DataFrame) :=
  fun s =>
    let (r, w) := get_historical_data token (world s) in
    (r, mkScan w (breakout_stocks s) (delay s) (trace s ++ [Fetch token])).

(** [breakout_stocks.append(d)] *)
Definition append (d : stock) : M unit :=
  fun s =>
    (Return tt, mkScan (world s) (breakout_stocks s ++ [d]) (delay s) (trace s)).

(** [delay *= 2] *)
Definition double_delay : M unit :=
  fun s =>
    (Return tt, mkScan (world s) (breakout_stocks s) (delay s * 2) (trace s)).

(** [time.sleep(delay)] *)
Definition sleep_delay : M unit :=
  fun s =>
    (Return tt,
     mkScan (world s) (breakout_stocks s) (delay s) (trace s ++ [Sleep (delay s)])).

(** One pass through the body of the retry loop, lines 227-250.
    [true]: the [break] was reached; [false]: the handler ran. *)
Definition attempt (symbol token : string) : M bool :=
  try_except
    (df <~ fetch token ;;
     _ <~ match df with
          | Some ((_ :: _) as df) =>
              v <~ lift (fst (identify_breakout df 20)) ;;
              let '(is_breakout, breakout_type, details) := v in
              if is_breakout : bool
              then append (mkStock symbol breakout_type details)
              else ret tt
          | _ => ret tt
          end ;;
     ret true)
    (fun _ => _ <~ double_delay ;; _ <~ sleep_delay ;; ret false).

(** [for _ in range(n): ... else: ...]; the [else] only logs. *)
Fixpoint retry (n : nat) (symbol token : string) : M unit :=
  match n with
  | O => ret tt
  | S n' =>
      stop <~ attempt symbol token ;;
      if stop : bool then ret tt else retry n' symbol token
  end.

(** The body of the outer loop, lines 220-256. *)
Definition scan_symbol (symbol : string) : M unit :=
  _ <~ match get_symbol_token symbol with
       | Some token => retry 3 symbol token
       | None => ret tt
       end ;;
  sleep_delay.

Fixpoint scan_loop (symbols : list string) : M unit :=
  match symbols with
  | [] => ret tt
  | symbol :: rest => _ <~ scan_symbol symbol ;; scan_loop rest
  end.

Definition init (w : World) : ScanState := mkScan w [] 1 [].

Definition scan_for_breakouts (symbols : list string) (w : World)
  : result (list stock) * ScanState :=
  match scan_loop symbols (init w) with
  | (Return _, s) => (Return (breakout_stocks s), s)
  | (Raise e, s) => (Raise e, s)
  end.

(** The state after an attempt that ended in the handler, and after one
    that reached the [break]. *)
Definition failed (token : string) (w : World) (s : ScanState) : ScanState :=
  mkScan w (breakout_stocks s) (delay s * 2)
         (trace s ++ [Fetch token; Sleep (delay s * 2)]).

Definition fetched (token : string) (w : World) (added : list stock)
  (s : ScanState) : ScanState :=
  mkScan w (breakout_stocks s ++ added) (delay s) (trace s ++ [Fetch token]).

(** A stock the scan may hold for [symbol]: what the classifier answered
    with [is_breakout] true on some fetched, non-empty frame. *)
Definition from_breakout (symbol : string) (d : stock) : Prop :=
  stock_symbol d = symbol /\
  exists df, df <> [] /\
    fst (identify_breakout df 20) =
      Return (true, stock_breakout_type d, stock_details d).

(** What at most [n] attempts on [symbol] may have done to the state. *)
Definition progress (symbol : string) (n : nat) (s s' : ScanState) : Prop :=
  exists (k : nat) (evs : list event) (added : list stock),
    (k <= n)%nat /\
    delay s' = (delay s * 2 ^ Z.of_nat k)%Z /\
    trace s' = trace s ++ evs /\
    (fetches evs <= n)%nat /\
    breakout_stocks s' = breakout_stocks s ++ added /\
    Forall (from_breakout symbol) added.

End Scan.

(** ** The repository's own collaborators *)

(** What [SmartConnect.getCandleData] hands back, as line 57 tells it
    apart: a dict whose ['data'] is a list of rows, or anything else. *)
Inductive response : Type :=
| Unexpected
| Data (rows : list candle).

(** The SDK session behind the connector, and the loaded instrument
    list as (symbol, token) pairs. *)
Class SmartApi : Type := {
  Session : Type;
  getCandleData : string -> Session -> result response * Session;
  instruments : list (string * string)
}.

(** [AngelOneConnector.get_historical_data], lines 46-69: whatever the
    SDK raises is caught there and answered with None. *)
Definition angel_get_historical_data {API : SmartApi} (symbol_token : string)
  (n : Session) : result (option DataFrame) * Session :=
  match getCandleData symbol_token n with
  | (Return (Data (c :: rows)), n') => (Return (Some (c :: rows)), n')
  | (Return (Data []), n') => (Return None, n')
  | (Return Unexpected, n') => (Return None, n')
  | (Raise _, n') => (Return None, n')
  end.

(** [InstrumentManager.get_symbol_token], lines 129-130: the token of the
    first instrument of that symbol.  The scan tests it for truth, which
    an empty token fails. *)
Definition angel_get_symbol_token {API : SmartApi} (symbol : string)
  : option string :=
  match find (fun i => String.eqb (fst i) symbol) instruments with
  | Some (_, EmptyString) => None
  | Some (_, token) => Some token
  | None => None
  end.

Definition angel_one (API : SmartApi) : Broker :=
  {| World := Session;
     get_symbol_token := angel_get_symbol_token;
     get_historical_data := angel_get_historical_data |}.

(** ** A pandas and a broker to run the model on *)

Fixpoint insert_row (c : candle) (df : DataFrame) : DataFrame :=
  match df with
  | [] => [c]
  | d :: df' =>
      if (stamp c <=? stamp d)%Z then c :: d :: df' else d :: insert_row c df'
  end.

Fixpoint isort (df : DataFrame) : DataFrame :=
  match df with
  | [] => []
  | c :: df' => insert_row c (isort df')
  end.

(** Compact dates such as "20240131", read as the number they spell. *)
Fixpoint digits (s : string) (acc : Z) : option Z :=
  match s with
  | EmptyString => Some acc
  | String a s' =>
      let n := Ascii.nat_of_ascii a in
      if ((48 <=? n) && (n <=? 57))%nat
      then digits s' (10 * acc + Z.of_nat (n - 48))%Z
      else None
  end.

Definition parse_compact (s : string) : option Z :=
  match s with
  | EmptyString => None
  | _ => digits s 0%Z
  end.

(** A connector that replays a script, one answer per call. *)
Definition scripted (token : string) (w : list (result (option DataFrame)))
  : result (option DataFrame) * list (result (option DataFrame)) :=
  match w with
  | [] => (Return None, [])
  | r :: w' => (r, w')
  end.

(** ** The stand-in pandas is a pandas *)

Lemma insert_row_perm (c : candle) (df : DataFrame) :
  Permutation (insert_row c df) (c :: df).
Proof.
  induction df as [|d df IH]; simpl.
  - apply Permutation_refl.
  - destruct (stamp c <=? stamp d)%Z.
    + apply Permutation_refl.
    + eapply perm_trans; [apply perm_skip, IH | apply perm_swap].
Qed.

Lemma isort_perm (df : DataFrame) : Permutation (isort df) df.
Proof.
  induction df as [|c df IH]; simpl.
  - constructor.
  - eapply perm_trans; [apply insert_row_perm | apply perm_skip, IH].
Qed.

Lemma insert_row_sorted (c : candle) (df : DataFrame) :
  Sorted stamp_le df -> Sorted stamp_le (insert_row c df).
Proof.
  induction 1 as [|d df Hs IH Hd]; simpl.
  - repeat constructor.
  - destruct (stamp c <=? stamp d)%Z eqn:E.
    + constructor; [constructor; assumption|].
      constructor. unfold stamp_le. lia.
    + constructor; [exact IH|].
      assert (Hdc : stamp_le d c) by (unfold stamp_le; lia).
      destruct Hd as [|e df' Hde]; simpl.
      * constructor; exact Hdc.
      * destruct (stamp c <=? stamp e)%Z; constructor; assumption.
Qed.

Lemma isort_sorted (df : DataFrame) : Sorted stamp_le (isort df).
Proof.
  induction df as [|c df IH]; simpl.
  - constructor.
  - apply insert_row_sorted, IH.
Qed.

#[export] Instance compact_pandas : Pandas :=
  {| parse_datetime := parse_compact;
     sort_values := isort;
     sort_values_perm := isort_perm;
     sort_values_sorted := isort_sorted |}.

(** Arithmetic without rounding: a stand-in that serves to run the model
    on the sample inputs.  It gives what the machine gives wherever the
    machine does not round; [binary64] below is the machine's
    arithmetic. *)
#[export] Instance exact_arith : Arith :=
  {| f_sub := Qminus;
     f_mul := Qmult;
     f_of_int := inject_Z;
     f_rolling_mean := fun window s =>
       agg_mean (valid (skipn (length s - window) s)) |}.

(** ** binary64 *)

(** [floor (log2 (n / d))] for positive [n] and [d]. *)
Definition binade (n d : Z) : Z :=
  let e := (Z.log2 n - Z.log2 d)%Z in
  if (n * 2 ^ Z.max 0 (- e) <? d * 2 ^ Z.max 0 e)%Z then (e - 1)%Z else e.

(** [num / den] rounded to the nearest integer, ties to even. *)
Definition round_half_even (num den : Z) : Z :=
  let m := (num / den)%Z in
  let r := (num mod den)%Z in
  if (2 * r <? den)%Z then m
  else if (den <? 2 * r)%Z then (m + 1)%Z
  else if Z.even m then m else (m + 1)%Z.

(** The double nearest to [x], ties to even: 53 significant bits, the
    unit in the last place never below [2 ^ -1074].  Overflow to
    infinity is left out. *)
Definition round64 (x : Q) : Q :=
  let n := Z.abs (Qnum x) in
  let d := Zpos (Qden x) in
  if (n =? 0)%Z then 0
  else
    let q := Z.max (binade n d - 52) (-1074) in
    let m := round_half_even (n * 2 ^ Z.max 0 (- q)) (d * 2 ^ Z.max 0 q) in
    Qred (inject_Z (Z.sgn (Qnum x) * m) * Qpower 2 q).

(** The running state of pandas' [roll_mean]
    (pandas/_libs/window/aggregations.pyx, pandas 2): a sum kept by
    Kahan summation as observations enter and leave the window. *)
Record mean_state : Type := mkMean {
  nobs : nat;
  sum_x : Q;
  neg_ct : nat;
  compensation_add : Q;
  compensation_remove : Q;
  num_consecutive_same_value : nat;
  prev_value : float
}.

Definition signbit (v : Q) : bool := negb (Qle_bool 0 v).

(** [a == b] on floats: false as soon as one side is NaN. *)
Definition float_eqb (a b : float) : bool :=
  match a, b with
  | Some x, Some y => Qeq_bool x y
  | _, _ => false
  end.

Definition add_mean (val : float) (st : mean_state) : mean_state :=
  match val with
  | None => st
  | Some v =>
      let y := round64 (v - compensation_add st) in
      let t := round64 (sum_x st + y) in
      let compensation := round64 (round64 (t - sum_x st) - y) in
      mkMean (S (nobs st)) t
             (if signbit v then S (neg_ct st) else neg_ct st)
             compensation (compensation_remove st)
             (if float_eqb val (prev_value st)
              then S (num_consecutive_same_value st) else 1%nat)
             val
  end.

Definition remove_mean (val : float) (st : mean_state) : mean_state :=
  match val with
  | None => st
  | Some v =>
      let y := round64 (- v - compensation_remove st) in
      let t := round64 (sum_x st + y) in
      let compensation := round64 (round64 (t - sum_x st) - y) in
      mkMean (Nat.pred (nobs st)) t
             (if signbit v then Nat.pred (neg_ct st) else neg_ct st)
             (compensation_add st) compensation
             (num_consecutive_same_value st) (prev_value st)
  end.

(** The mean of a window that holds an observation. *)
Definition calc_mean (st : mean_state) : Q :=
  let result := round64 (sum_x st / inject_Z (Z.of_nat (nobs st))) in
  if (nobs st <=? num_consecutive_same_value st)%nat
  then match prev_value st with Some v => v | None => result end
  else if (neg_ct st =? 0)%nat && negb (Qle_bool 0 result) then 0
  else if (neg_ct st =? nobs st)%nat && negb (Qle_bool result 0) then 0
  else result.

(** Position [i] of the loop, whose window is [[i + 1 - window, i + 1)]:
    a fresh sum at the start (and where the window does not overlap the
    one before), else the cells that left are removed and the new cell
    is added. *)
Definition roll_step (window : nat) (values : list float) (st : mean_state)
  (i : nat) : mean_state :=
  let s := (i + 1 - window)%nat in
  let e := (i + 1)%nat in
  if (i =? 0)%nat || (i <=? s)%nat
  then fold_left (fun st j => add_mean (nth j values None) st)
                 (seq s (e - s))
                 (mkMean 0 0 0 0 0 0 (nth s values None))
  else
    let st := fold_left (fun st j => remove_mean (nth j values None) st)
                        (seq (i - window) (s - (i - window))) st in
    fold_left (fun st j => add_mean (nth j values None) st) (seq i (e - i)) st.

(** The last cell of [values.rolling(window, min_periods=1).mean()]. *)
Definition roll_mean (window : nat) (values : list float) : Q :=
  calc_mean (fold_left (roll_step window values) (seq 0 (length values))
                       (mkMean 0 0 0 0 0 0 None)).

(** The machine's arithmetic on doubles. *)
Definition binary64 : Arith :=
  {| f_sub := fun a b => round64 (a - b);
     f_mul := fun a b => round64 (a * b);
     f_of_int := fun z => round64 (inject_Z z);
     f_rolling_mean := roll_mean |}.

#[export] Instance scripted_broker : Broker :=
  {| World := list (result (option DataFrame));
     get_symbol_token := fun symbol => Some symbol;
     get_historical_data := scripted |}.

(** ** Sample inputs *)

Definition row (t : Z) (h l c : Q) (v : Z) : candle :=
  mkCandle (TsStamp t) c h l c v.

(** Two candles: the second closes above the first one's high. *)
Definition two_candles : DataFrame :=
  [row 1 10 5 8 100; row 2 20 9 19 100].

(** The same two candles as the feed sends them, latest first. *)
Definition two_candles_text : DataFrame :=
  [mkCandle (TsText "20240102") 19 20 9 19 100;
   mkCandle (TsText "20240101") 8 10 5 8 100].

Definition one_candle : DataFrame := [row 1 105 95 100 1000].

(** 24 quiet candles closing at 100, then one closing at 150 on three
    times the volume. *)
Definition quiet (t : Z) : candle := row t 101 99 100 1000.

Definition scenario_a : DataFrame :=
  map (fun i => quiet (Z.of_nat i)) (seq 1 24) ++ [row 25 155 95 150 3000].

Definition size_equals_atr : DataFrame :=
  [row 1 10 5 10 100; row 2 20 15 20 100].

Definition volume_at_threshold : DataFrame :=
  [row 1 10 10 10 100; row 2 10 10 10 100; row 3 20 10 20 200].

Definition volume_above_threshold : DataFrame :=
  [row 1 10 10 10 100; row 2 10 10 10 100; row 3 20 10 20 300].

(** Three candles at prices that are no doubles: 1.01, 2.26 and 3.51 as
    the machine holds them.  The last close is 1.25 above the high
    before it, and so is the rounded mean of the two true ranges, but
    not their exact mean. *)
Definition rounding_case : DataFrame :=
  [row 1 (round64 (101 # 100)) (round64 (101 # 100)) (round64 (101 # 100)) 100;
   row 2 (round64 (226 # 100)) (round64 (101 # 100)) (round64 (226 # 100)) 100;
   row 3 (round64 (351 # 100)) (round64 (226 # 100)) (round64 (351 # 100)) 1000].

(** A connector that raises twice, then answers with [scenario_a]. *)
Definition flaky : @World scripted_broker :=
  [Raise FetchError; Raise FetchError; Return (Some scenario_a)].

(** A connector that raises at every call of a symbol's three. *)
Definition down : @World scripted_broker :=
  [Raise FetchError; Raise FetchError; Raise FetchError].


Definition flaky_run : result (list stock) * ScanState :=
  scan_for_breakouts ["SBIN-EQ"%string] flaky.

(** ** More readings of a frame *)

(** The highs the rolling high at the second-to-last position ranges
    over: those of the [lookback] candles before the last one (of all of
    them when there are fewer). *)
Definition previous_highs (s : DataFrame) (lookback : Z) : list Q :=
  skipn (length s - 1 - Z.to_nat lookback) (firstn (length s - 1) (column high s)).

(** ** More for the scan *)

(** [l1] is [l2] with some elements left out, the order kept. *)
Inductive subsequence {A : Type} : list A -> list A -> Prop :=
| sub_nil : forall l, subsequence [] l
| sub_keep : forall x l1 l2, subsequence l1 l2 -> subsequence (x :: l1) (x :: l2)
| sub_skip : forall x l1 l2, subsequence l1 l2 -> subsequence l1 (x :: l2).

(** A frame of 21 rows whose first timestamp is no date. *)
Definition unreadable : DataFrame :=
  mkCandle (TsText "n/a") 100 101 99 100 1000 :: skipn 4 scenario_a.

(** A connector that answers with [unreadable] data three times. *)
Definition garbled : @World scripted_broker :=
  [Return (Some unreadable); Return (Some unreadable); Return (Some unreadable)].

(** An SDK session that always answers with [scenario_a], and a master
    list of one instrument. *)
#[export] Instance steady_api : SmartApi :=
  {| Session := unit;
     getCandleData := fun _ n => (Return (Data scenario_a), n);
     instruments := [("SBIN-EQ"%string, "3045"%string)] |}.

(** ** The instrument master *)

(** A row of the instrument master, with the columns the repository
    reads.  An empty [i_expiry] is the empty cell of an instrument that
    does not expire. *)
Record instrument : Type := mkInstrument {
  i_token : string;
  i_symbol : string;
  i_name : string;
  i_expiry : string;
  i_exch_seg : string;
  i_instrumenttype : string
}.

(** [self.instruments] once loaded: a DataFrame when read from the CSV
    file, a list of dicts when read from the JSON file or the network. *)
Inductive loaded : Type :=
| AsFrame (rows : list instrument)
| AsList (rows : list instrument).

(** Line 127-128: [df[df['symbol'] == symbol]], then [iloc[0]['token']]
    unless empty. *)
Definition lookup_frame (rows : list instrument) (symbol : string)
  : option string :=
  match filter (fun i => String.eqb (i_symbol i) symbol) rows with
  | [] => None
  | i :: _ => Some (i_token i)
  end.

(** Line 130: [next((i['token'] for i in ... if i['symbol'] == symbol), None)]. *)
Definition lookup_list (rows : list instrument) (symbol : string)
  : option string :=
  match find (fun i => String.eqb (i_symbol i) symbol) rows with
  | Some i => Some (i_token i)
  | None => None
  end.

(** [df.to_csv(file, index=False)] followed by [pd.read_csv(file)] is
    not the identity: [read_csv] infers the type of every column afresh
    and reads empty and NA-like cells as NaN.  [read_back rows] is the
    frame that [pd.read_csv] makes of the file that [to_csv] wrote from
    [rows]; nothing is assumed about it. *)
Class CsvFile : Type := {
  read_back : list instrument -> list instrument
}.

(** The manager and the two cache files it owns.  A file is held as what
    loading it gives, with the day of its modification time: for
    [instruments.csv] the rows of the frame that [pd.read_csv] makes of
    it, for [instruments.json] the list that [json.load] makes of it
    (the list that [json.dump] was given).  [im_requests] counts the
    downloads attempted. *)
Record IM : Type := mkIM {
  im_instruments : option loaded;
  im_csv : option (list instrument * Z);
  im_json : option (list instrument * Z);
  im_requests : nat
}.

(** What [requests.get] came back with. *)
Record response_http : Type := mkHttp {
  status_code : Z;
  json_body : list instrument
}.

(** [_load_instruments], lines 104-113. *)
Definition _load_instruments (m : IM) : IM :=
  match im_csv m with
  | Some (rows, _) =>
      mkIM (Some (AsFrame rows)) (im_csv m) (im_json m) (im_requests m)
  | None =>
      match im_json m with
      | Some (rows, _) =>
          mkIM (Some (AsList rows)) (im_csv m) (im_json m) (im_requests m)
      | None => m
      end
  end.

(** [_should_update_file], lines 115-120, on day [today]. *)
Definition _should_update_file (today : Z) (m : IM) : bool :=
  match im_csv m, im_json m with
  | None, None => true
  | Some (_, mtime), _ => (mtime <? today)%Z
  | None, Some (_, mtime) => (mtime <? today)%Z
  end.

(** [_save_instruments], lines 98-102: both files are written, the JSON
    file by [json.dump], the CSV file by [to_csv]. *)
Definition _save_instruments {CSV : CsvFile} (today : Z) (m : IM) : IM :=
  match im_instruments m with
  | Some (AsList rows) | Some (AsFrame rows) =>
      mkIM (im_instruments m) (Some (read_back rows, today))
           (Some (rows, today)) (im_requests m)
  | None => m
  end.

(** [_download_instruments], lines 89-96. *)
Definition _download_instruments {CSV : CsvFile} (today : Z) (r : response_http)
  (m : IM) : IM :=
  let m := mkIM (im_instruments m) (im_csv m) (im_json m) (S (im_requests m)) in
  if (status_code r =? 200)%Z
  then _save_instruments today
         (mkIM (Some (AsList (json_body r))) (im_csv m) (im_json m) (im_requests m))
  else m.

(** [fetch_instruments], lines 83-87; [r] is what the network would
    answer if asked. *)
Definition fetch_instruments {CSV : CsvFile} (today : Z) (r : response_http)
  (m : IM) : IM :=
  if _should_update_file today m
  then _download_instruments today r m
  else _load_instruments m.

(** [get_symbol_token], lines 122-131: the token and the manager after
    the call. *)
Definition get_symbol_token_im (symbol : string) (m : IM) : option string * IM :=
  let m := match im_instruments m with
           | None => _load_instruments m
           | Some _ => m
           end in
  (match im_instruments m with
   | Some (AsFrame rows) => lookup_frame rows symbol
   | Some (AsList rows) => lookup_list rows symbol
   | None => None
   end, m).

(** ** prepare_stocks_to_scan *)

Section Prepare.

(** [pd.to_datetime(., format='%d%b%Y')] on one text; [None] when pandas
    raises. *)
Variable parse_expiry : string -> option Z.

(** The moment of the run, [datetime.now()]. *)
Variable today : Z.

Definition is_future (i : instrument) : bool :=
  String.eqb (i_exch_seg i) "NFO" && String.eqb (i_instrumenttype i) "FUTSTK".

(** One cell of [expiry_date]: an empty cell becomes NaT ([None]). *)
Definition to_expiry_date (e : string) : result (option Z) :=
  match e with
  | EmptyString => Return None
  | _ => match parse_expiry e with
         | Some t => Return (Some t)
         | None => Raise ValueError
         end
  end.

(** Line 141: the futures with their expiry dates. *)
Fixpoint with_expiry_date (futures : list instrument)
  : result (list (instrument * option Z)) :=
  match futures with
  | [] => Return []
  | i :: rest =>
      d <- to_expiry_date (i_expiry i) ;;
      ds <- with_expiry_date rest ;;
      Return ((i, d) :: ds)
  end.

(** [expiry_date >= today]; NaT compares false. *)
Definition not_expired (p : instrument * option Z) : bool :=
  match snd p with
  | Some t => (today <=? t)%Z
  | None => false
  end.

(** [Series.min()]: NaT on an empty series. *)
Fixpoint earliest (l : list (instrument * option Z)) : option Z :=
  match l with
  | [] => None
  | (_, None) :: rest => earliest rest
  | (_, Some t) :: rest =>
      match earliest rest with
      | Some u => Some (Z.min t u)
      | None => Some t
      end
  end.

Definition expires_on (nearest : option Z) (p : instrument * option Z) : bool :=
  match nearest, snd p with
  | Some n, Some t => (t =? n)%Z
  | _, _ => false
  end.

(** [Series.unique()]: first occurrences, in order. *)
Fixpoint unique_from (seen names : list string) : list string :=
  match names with
  | [] => []
  | x :: rest =>
      if existsb (String.eqb x) seen then unique_from seen rest
      else x :: unique_from (x :: seen) rest
  end.

Definition unique (names : list string) : list string := unique_from [] names.

(** Lines 134-159: the rows written to [output_file], as
    (token, symbol, name). *)
Definition prepare_stocks_to_scan (df : list instrument)
  : result (list (string * string * string)) :=
  let futures_df := filter is_future df in
  dated <- with_expiry_date futures_df ;;
  let current := filter not_expired dated in
  let nearest_expiry := earliest current in
  let nearest := filter (expires_on nearest_expiry) current in
  let stock_names := unique (map (fun p => i_name (fst p)) nearest) in
  let stock_symbols := map (fun name => (name ++ "-EQ")%string) stock_names in
  let nse_stocks :=
    filter (fun i => String.eqb (i_exch_seg i) "NSE" &&
                     existsb (String.eqb (i_symbol i)) stock_symbols) df in
  Return (map (fun i => (i_token i, i_symbol i, i_name i)) nse_stocks).

End Prepare.

(** ** The summary of main *)

(** Lines 290-291. *)
Definition full_breakouts (breakout_stocks : list stock) : list stock :=
  filter (fun d => String.eqb (stock_breakout_type d) "Full Breakout")
         breakout_stocks.

Definition partial_breakouts (breakout_stocks : list stock) : list stock :=
  filter (fun d => String.prefix "Partial Breakout" (stock_breakout_type d))
         breakout_stocks.

(** ** A small instrument master *)

Definition sbin_future : instrument :=
  mkInstrument "52001" "SBIN28NOV24FUT" "SBIN" "20241128" "NFO" "FUTSTK".
Definition sbin_next_future : instrument :=
  mkInstrument "52002" "SBIN26DEC24FUT" "SBIN" "20241226" "NFO" "FUTSTK".
Definition sbin_old_future : instrument :=
  mkInstrument "52000" "SBIN31OCT24FUT" "SBIN" "20241031" "NFO" "FUTSTK".
Definition sbin_equity : instrument :=
  mkInstrument "3045" "SBIN-EQ" "SBIN" "" "NSE" "".
Definition sbin_bse : instrument :=
  mkInstrument "500112" "SBIN-EQ" "SBIN" "" "BSE" "".
Definition tcs_equity : instrument :=
  mkInstrument "11536" "TCS-EQ" "TCS" "" "NSE" "".

Definition master : list instrument :=
  [sbin_bse; sbin_old_future; tcs_equity; sbin_next_future; sbin_equity;
   sbin_future].

(** Compact dates as instants: midnight of "20241128" is 202411280000. *)
Definition compact_expiry (e : string) : option Z :=
  option_map (Z.mul 10000) (parse_compact e).

(** The 5th of November 2024, 10:30. *)
Definition run_time : Z := 202411051030.

(** A manager that has loaded nothing and has no cache file. *)
Definition fresh_manager : IM := mkIM None None None 0.

(** A stand-in for the CSV round trip in which every cell is text and
    reads back as it was written; it serves to run the manager on the
    sample master. *)
#[export] Instance verbatim_csv : CsvFile := {| read_back := fun rows => rows |}.

(** * Properties *)

(** ** Positional reads *)

Lemma iloc_neg_in (A : Type) (s : list A) (k : nat) :
  (1 <= k <= length s)%nat ->
  exists x, nth_error s (length s - k) = Some x /\
            iloc s (- Z.of_nat k) = Return x.
Proof.
  intros Hk. unfold iloc.
  assert (Hneg : ((- Z.of_nat k <? 0) = true)%Z) by (apply Z.ltb_lt; lia).
  rewrite Hneg.
  assert (Hin : (((0 <=? Z.of_nat (length s) + - Z.of_nat k) &&
                  (Z.of_nat (length s) + - Z.of_nat k <? Z.of_nat (length s)))
                 = true)%Z).
  { apply andb_true_iff; split; [apply Z.leb_le | apply Z.ltb_lt]; lia. }
  rewrite Hin.
  replace (Z.to_nat (Z.of_nat (length s) + - Z.of_nat k)) with (length s - k)%nat
    by lia.
  destruct (nth_error s (length s - k)) as [x|] eqn:E.
  - exists x; split; reflexivity.
  - apply nth_error_None in E. lia.
Qed.

Lemma iloc_neg_out (A : Type) (s : list A) (k : nat) :
  (length s < k)%nat -> iloc s (- Z.of_nat k) = Raise IndexError.
Proof.
  intros Hk. unfold iloc.
  assert (Hneg : ((- Z.of_nat k <? 0) = true)%Z) by (apply Z.ltb_lt; lia).
  rewrite Hneg.
  assert (Hout : ((0 <=? Z.of_nat (length s) + - Z.of_nat k) = false)%Z)
    by (apply Z.leb_gt; lia).
  rewrite Hout. reflexivity.
Qed.

Lemma iloc_return_length (A : Type) (s : list A) (k : nat) (x : A) :
  (1 <= k)%nat -> iloc s (- Z.of_nat k) = Return x -> (k <= length s)%nat.
Proof.
  intros Hk H.
  destruct (Nat.le_gt_cases k (length s)) as [Hle|Hgt]; [exact Hle|].
  rewrite iloc_neg_out in H by exact Hgt. discriminate.
Qed.

(** ** Rolling windows *)

Lemma rolling_return (window : Z) (agg : list Q -> Q) (s : list float) :
  (1 <= window)%Z ->
  rolling window 1 agg s =
  Return (map (rolling_cell (Z.to_nat window) 1 agg s) (seq 0 (length s))).
Proof.
  intros Hw. unfold rolling.
  assert (E : ((window <? Z.of_nat 1) = false)%Z) by (apply Z.ltb_ge; lia).
  rewrite E. reflexivity.
Qed.

Lemma rolling_raise (window : Z) (agg : list Q -> Q) (s : list float) :
  (window < 1)%Z -> rolling window 1 agg s = Raise ValueError.
Proof.
  intros Hw. unfold rolling.
  assert (E : ((window <? Z.of_nat 1) = true)%Z) by (apply Z.ltb_lt; lia).
  rewrite E. reflexivity.
Qed.

Lemma rolling_length (window : Z) (agg : list Q -> Q) (s col : list float) :
  rolling window 1 agg s = Return col -> length col = length s.
Proof.
  unfold rolling. destruct (window <? Z.of_nat 1)%Z; [discriminate|].
  intros H. injection H as <-. rewrite length_map, length_seq. reflexivity.
Qed.

Lemma nth_error_map_seq (B : Type) (f : nat -> B) (n i : nat) :
  (i < n)%nat -> nth_error (map f (seq 0 n)) i = Some (f i).
Proof.
  intros Hi. rewrite nth_error_map, nth_error_seq.
  destruct (Nat.ltb_spec i n) as [_|Hge]; [reflexivity | lia].
Qed.

Lemma rolling_iloc_neg (window : Z) (agg : list Q -> Q) (s : list float) (k : nat) :
  (1 <= window)%Z -> (1 <= k <= length s)%nat ->
  (col <- rolling window 1 agg s ;; iloc col (- Z.of_nat k)) =
  Return (rolling_cell (Z.to_nat window) 1 agg s (length s - k)).
Proof.
  intros Hw Hk. rewrite rolling_return by exact Hw. simpl bind.
  set (col := map _ _).
  assert (Hlen : length col = length s)
    by (unfold col; rewrite length_map, length_seq; reflexivity).
  destruct (@iloc_neg_in _ col k) as [x [Hx ->]]; [lia|].
  f_equal. rewrite Hlen in Hx. unfold col in Hx.
  rewrite nth_error_map_seq in Hx by lia. congruence.
Qed.

Lemma rolling_mean_iloc_neg {AR : Arith} (window : Z) (s : list float) (k : nat) :
  (1 <= window)%Z -> (1 <= k <= length s)%nat ->
  (col <- rolling_mean window 1 s ;; iloc col (- Z.of_nat k)) =
  Return (rolling_mean_cell (Z.to_nat window) 1 s (length s - k)).
Proof.
  intros Hw Hk. unfold rolling_mean.
  assert (E : ((window <? Z.of_nat 1) = false)%Z) by (apply Z.ltb_ge; lia).
  rewrite E. simpl bind.
  set (col := map _ _).
  assert (Hlen : length col = length s)
    by (unfold col; rewrite length_map, length_seq; reflexivity).
  destruct (@iloc_neg_in _ col k) as [x [Hx ->]]; [lia|].
  f_equal. rewrite Hlen in Hx. unfold col in Hx.
  rewrite nth_error_map_seq in Hx by lia. congruence.
Qed.

Lemma valid_map_Some (l : list Q) : valid (map Some l) = l.
Proof. induction l as [|q l IH]; simpl; [reflexivity | now rewrite IH]. Qed.

Lemma window_at_last (A : Type) (window : nat) (s : list A) :
  window_at window s (length s - 1) = skipn (length s - window) s.
Proof.
  unfold window_at. destruct s as [|a s]; [now destruct window|].
  replace (S (length (a :: s) - 1)) with (length (a :: s)) by (simpl; lia).
  now rewrite firstn_all.
Qed.

(** ** True range *)

Lemma true_range_cons {AR : Arith} (c : candle) (df : DataFrame) :
  true_range (c :: df) = None :: map Some (true_ranges_from (close c) df).
Proof.
  unfold true_range, shift, np_maximum, col_sub, col_abs, zip_with, fcolumn.
  simpl. f_equal.
  generalize (close c) as q. clear c.
  induction df as [|d df IH]; intros q; simpl; [reflexivity|].
  f_equal. apply IH.
Qed.

Lemma true_range_length {AR : Arith} (df : DataFrame) :
  length (true_range df) = length df.
Proof.
  destruct df as [|c df]; [reflexivity|].
  rewrite true_range_cons. simpl. rewrite length_map. f_equal.
  generalize (close c). induction df as [|d df IH]; intros q; simpl;
    [reflexivity | now rewrite IH].
Qed.

Lemma true_ranges_from_length {AR : Arith} (q : Q) (df : DataFrame) :
  length (true_ranges_from q df) = length df.
Proof.
  revert q. induction df as [|d df IH]; intros q; simpl;
    [reflexivity | now rewrite IH].
Qed.

(** The observations of the ATR window at the last position: the first
    row's NaN is dropped, the rest are the last 14 defined true ranges. *)
Lemma atr_window {AR : Arith} (c : candle) (df : DataFrame) :
  valid (window_at 14 (true_range (c :: df)) (length (c :: df) - 1)) =
  skipn (length df - 14) (true_ranges_from (close c) df).
Proof.
  rewrite <- (true_range_length (c :: df)), window_at_last.
  rewrite true_range_cons. simpl length. rewrite length_map.
  rewrite true_ranges_from_length.
  set (l := true_ranges_from (close c) df).
  destruct (Nat.le_gt_cases 14 (length df)) as [Hge|Hlt].
  - replace (S (length df) - 14)%nat with (S (length df - 14)) by lia.
    simpl skipn. rewrite skipn_map. apply valid_map_Some.
  - replace (S (length df) - 14)%nat with 0%nat by lia.
    replace (length df - 14)%nat with 0%nat by lia.
    simpl. apply valid_map_Some.
Qed.

(** ** The classifier *)

Section ClassifierFacts.
Context {PD : Pandas} {AR : Arith}.

(** Line 168, row by row. *)
Lemma assign_parsed (df : DataFrame) :
  match to_datetime (column timestamp df) with
  | Some col => Some (assign_timestamp df col)
  | None => None
  end = parse_rows df.
Proof.
  unfold column. induction df as [|c df IH]; simpl; [reflexivity|].
  unfold parse_row.
  destruct (to_datetime1 (timestamp c)) as [t|]; simpl; [|reflexivity].
  destruct (to_datetime (map timestamp df)) as [col|]; rewrite <- IH; reflexivity.
Qed.

Lemma identify_breakout_unfold (df : DataFrame) (lookback : Z) :
  identify_breakout df lookback =
  if (Z.of_nat (length df) <? lookback)%Z
  then (Return (false, InsufficientData, None), df)
  else match parse_rows df with
       | None => (Raise ValueError, df)
       | Some df' => (analyse (sort_values df') lookback, df')
       end.
Proof.
  unfold identify_breakout. rewrite <- assign_parsed.
  destruct (Z.of_nat (length df) <? lookback)%Z; [reflexivity|].
  destruct (to_datetime (column timestamp df)); reflexivity.
Qed.

Lemma parse_rows_length (df p : DataFrame) :
  parse_rows df = Some p -> length p = length df.
Proof.
  revert p. induction df as [|c df IH]; simpl; intros p H.
  - injection H as <-. reflexivity.
  - destruct (parse_row c); [|discriminate].
    destruct (parse_rows df) as [p'|]; [|discriminate].
    injection H as <-. simpl. f_equal. apply IH. reflexivity.
Qed.

Lemma sort_values_length (df : DataFrame) :
  length (sort_values df) = length df.
Proof. apply Permutation_length, sort_values_perm. Qed.

Lemma sorted_frame_length (df s : DataFrame) :
  sorted_frame df = Some s -> length s = length df.
Proof.
  unfold sorted_frame. destruct (parse_rows df) as [p|] eqn:E; [|discriminate].
  simpl. intros H. injection H as <-.
  rewrite sort_values_length. now apply parse_rows_length.
Qed.

Lemma highest_high_length (df : DataFrame) (lookback : Z) (hh : list float) :
  highest_high df lookback = Return hh -> length hh = length df.
Proof.
  unfold highest_high. intros H. apply rolling_length in H.
  rewrite H. unfold fcolumn. apply length_map.
Qed.

(** What a returning [analyse] has read. *)
Lemma analyse_return (s : DataFrame) (lookback : Z) (v : verdict) :
  analyse s lookback = Return v ->
  (1 <= lookback)%Z /\ (2 <= length s)%nat.
Proof.
  unfold analyse. intros H.
  destruct (Z.lt_ge_cases lookback 1) as [Hlt|Hge].
  - unfold highest_high in H. rewrite rolling_raise in H by exact Hlt.
    discriminate.
  - split; [exact Hge|].
    destruct (highest_high s lookback) as [hh|e] eqn:Ehh; [|discriminate].
    simpl in H.
    destruct (iloc (column close s) (-1)) as [cc|e]; [|discriminate].
    simpl in H.
    destruct (iloc hh (-2)) as [ph|e] eqn:Eph; [|discriminate].
    change (-2)%Z with (- Z.of_nat 2)%Z in Eph.
    apply iloc_return_length in Eph; [|lia].
    apply highest_high_length in Ehh. lia.
Qed.

(** The read of the rolling high at the second-to-last position succeeds
    exactly on frames of two rows or more (for a window of 1 or more). *)
Lemma previous_high_at_length (s : DataFrame) (lookback : Z) (ph : float) :
  previous_high_at s lookback = Return ph ->
  (1 <= lookback)%Z /\ (2 <= length s)%nat.
Proof.
  unfold previous_high_at. intros H.
  destruct (Z.lt_ge_cases lookback 1) as [Hlt|Hge].
  - unfold highest_high in H. rewrite rolling_raise in H by exact Hlt.
    discriminate.
  - split; [exact Hge|].
    destruct (highest_high s lookback) as [hh|e] eqn:Ehh; [|discriminate].
    simpl in H. change (-2)%Z with (- Z.of_nat 2)%Z in H.
    apply iloc_return_length in H; [|lia].
    apply highest_high_length in Ehh. lia.
Qed.

Lemma analyse_reads (s : DataFrame) (lookback : Z) (cc : Q) (ph : float) :
  current_close_at s = Return cc ->
  previous_high_at s lookback = Return ph ->
  analyse s lookback =
  if notna ph && gt (Some cc) ph then
    atr <- atr_at s ;;
    avg_volume <- avg_volume_at s lookback ;;
    current_volume <- current_volume_at s ;;
    let breakout_size := lift2 f_sub (Some cc) ph in
    let details := mkMetrics cc ph breakout_size atr current_volume avg_volume in
    if gt breakout_size atr then
      if gt (Some (f_of_int current_volume))
            (lift2 f_mul (Some (3 # 2)) avg_volume)
      then Return (true, FullBreakout, Some details)
      else Return (true, PartialBreakoutLowVolume, Some details)
    else Return (true, PartialBreakoutSmallSize, Some details)
  else Return (false, NoBreakout, None).
Proof.
  unfold current_close_at, previous_high_at, analyse. intros Hcc Hph.
  destruct (highest_high s lookback) as [hh|e]; [|discriminate].
  cbn [bind] in Hph. cbn [bind]. rewrite Hcc. cbn [bind]. rewrite Hph.
  cbn [bind].
  destruct (notna ph && gt (Some cc) ph); [|reflexivity].
  unfold atr_at, avg_volume_at, current_volume_at.
  destruct (atr_column s) as [ac|e]; [|reflexivity]. cbn [bind].
  destruct (iloc ac (-1)) as [a|e]; [|reflexivity]. cbn [bind].
  destruct (avg_volume_column s lookback) as [vc|e]; [|reflexivity]. cbn [bind].
  destruct (iloc vc (-1)) as [av|e]; [|reflexivity]. cbn [bind].
  destruct (iloc (column volume s) (-1)) as [cv|e]; reflexivity.
Qed.

(** On two rows or more the ATR at the last position is a number: the
    rolling mean of the true-range column. *)
Lemma atr_at_value (c : candle) (df : DataFrame) :
  df <> [] ->
  atr_at (c :: df) = Return (Some (f_rolling_mean 14 (true_range (c :: df)))).
Proof.
  intros Hne. unfold atr_at, atr_column.
  assert (Hlen : (1 <= length df)%nat) by (destruct df; [congruence | simpl; lia]).
  change (-1)%Z with (- Z.of_nat 1)%Z.
  rewrite rolling_mean_iloc_neg; [|lia|rewrite true_range_length; simpl; lia].
  f_equal. unfold rolling_mean_cell. change (Z.to_nat 14) with 14%nat.
  rewrite true_range_length, atr_window.
  set (obs := skipn _ _).
  assert (Hobs : (1 <= length obs)%nat).
  { unfold obs. rewrite length_skipn, true_ranges_from_length. lia. }
  destruct (Nat.ltb_spec (length obs) 1); [lia|].
  f_equal. f_equal.
  replace (S (length (c :: df) - 1)) with (length (true_range (c :: df)))
    by (rewrite true_range_length; simpl; lia).
  apply firstn_all.
Qed.

(** On a non-empty frame the mean volume at the last position is a number. *)
Lemma avg_volume_at_value (s : DataFrame) (lookback : Z) :
  (1 <= lookback)%Z -> s <> [] ->
  exists av, avg_volume_at s lookback = Return (Some av).
Proof.
  intros Hw Hne. unfold avg_volume_at, avg_volume_column.
  change (-1)%Z with (- Z.of_nat 1)%Z.
  assert (Hlen : (1 <= length s)%nat) by (destruct s; [congruence | simpl; lia]).
  rewrite rolling_mean_iloc_neg; [|lia|unfold fcolumn; rewrite length_map; lia].
  unfold rolling_mean_cell. rewrite window_at_last.
  unfold fcolumn at 1 2. rewrite length_map.
  rewrite <- (map_map (fun c => f_of_int (volume c)) Some).
  rewrite skipn_map, valid_map_Some.
  set (obs := skipn _ _).
  assert (Hobs : (1 <= length obs)%nat).
  { unfold obs. rewrite length_skipn, length_map. lia. }
  destruct (Nat.ltb_spec (length obs) 1); [lia|].
  eexists; reflexivity.
Qed.

Lemma current_volume_at_value (s : DataFrame) :
  s <> [] -> exists cv, current_volume_at s = Return cv.
Proof.
  intros Hne. unfold current_volume_at. change (-1)%Z with (- Z.of_nat 1)%Z.
  destruct (@iloc_neg_in _ (column volume s) 1) as [x [_ Hx]].
  - unfold column. rewrite length_map. destruct s; [congruence | simpl; lia].
  - exists x. exact Hx.
Qed.

(** The rolling high at the second-to-last position is a number: the
    highest high of the [lookback] candles that precede the last one (of
    all of them when there are fewer). *)
Lemma previous_high_at_value (s : DataFrame) (lookback : Z) :
  (1 <= lookback)%Z -> (2 <= length s)%nat ->
  previous_high_at s lookback =
  Return (Some (agg_max (skipn (length s - 1 - Z.to_nat lookback)
                               (firstn (length s - 1) (column high s))))).
Proof.
  intros Hw Hn. unfold previous_high_at, highest_high.
  change (-2)%Z with (- Z.of_nat 2)%Z.
  rewrite rolling_iloc_neg; [|lia|unfold fcolumn; rewrite length_map; lia].
  f_equal. unfold rolling_cell, window_at, fcolumn, column.
  rewrite length_map.
  replace (S (length s - 2)) with (length s - 1)%nat by lia.
  rewrite <- (map_map high Some), firstn_map, skipn_map, valid_map_Some.
  set (obs := skipn _ _).
  assert (Hobs : (1 <= length obs)%nat).
  { unfold obs. rewrite length_skipn, length_firstn, length_map. lia. }
  destruct (Nat.ltb_spec (length obs) 1); [lia | reflexivity].
Qed.

End ClassifierFacts.

Section ClassifierClaims.
Context {PD : Pandas} {AR : Arith}.

Lemma sorted_frame_unfold (df s : DataFrame) :
  sorted_frame df = Some s ->
  exists p, parse_rows df = Some p /\ s = sort_values p.
Proof.
  unfold sorted_frame. destruct (parse_rows df) as [p|]; [|discriminate].
  simpl. intros H. injection H as <-. exists p. split; reflexivity.
Qed.

Lemma gt_Some (x y : Q) : gt (Some x) (Some y) = true <-> y < x.
Proof.
  simpl. rewrite negb_true_iff. split.
  - intros H. apply Qnot_le_lt. intros Hle.
    apply Qle_bool_iff in Hle. congruence.
  - intros H. destruct (Qle_bool x y) eqn:E; [|reflexivity].
    apply Qle_bool_iff in E. exfalso. apply (Qlt_not_le _ _ H E).
Qed.

Lemma gt_Some_false (x y : Q) : gt (Some x) (Some y) = false <-> x <= y.
Proof.
  simpl. rewrite negb_false_iff. apply Qle_bool_iff.
Qed.

(** C1 -- A series of at least [lookback] candles whose last close is
    strictly above the rolling high at the second-to-last position gets
    a breakout verdict: [is_breakout] is true, the details carry
    current_close, previous_high, breakout_size, atr, current_volume and
    avg_volume, and the category follows the tie-breaks with inclusive
    boundaries: small size when [breakout_size <= atr] (equality
    included), otherwise low volume when
    [current_volume <= 1.5 * avg_volume] (equality included), otherwise
    full breakout.  The quantities compared are the program's own:
    [breakout_size] is the binary64 difference, [atr] and [avg_volume]
    the binary64 rolling means, [1.5 * avg_volume] the binary64
    product. *)
Theorem breakout_tie_breaks (df s : DataFrame) (lookback : Z) (cc ph : Q) :
  (lookback <= Z.of_nat (length df))%Z ->
  sorted_frame df = Some s ->
  current_close_at s = Return cc ->
  previous_high_at s lookback = Return (Some ph) ->
  ph < cc ->
  exists (category : string) (a av : Q) (cv : Z),
    atr_at s = Return (Some a) /\
    avg_volume_at s lookback = Return (Some av) /\
    current_volume_at s = Return cv /\
    fst (identify_breakout df lookback) =
      Return (true, category,
              Some (mkMetrics cc (Some ph) (Some (f_sub cc ph)) (Some a) cv
                              (Some av))) /\
    (f_sub cc ph <= a -> category = PartialBreakoutSmallSize) /\
    (f_sub cc ph == a -> category = PartialBreakoutSmallSize) /\
    (a < f_sub cc ph -> f_of_int cv <= f_mul (3 # 2) av ->
     category = PartialBreakoutLowVolume) /\
    (a < f_sub cc ph -> f_of_int cv == f_mul (3 # 2) av ->
     category = PartialBreakoutLowVolume) /\
    (a < f_sub cc ph -> f_mul (3 # 2) av < f_of_int cv ->
     category = FullBreakout).
Proof.
  intros Hlen Hs Hcc Hph Hgt.
  destruct (sorted_frame_unfold _ _ Hs) as [p [Hp ->]].
  destruct (previous_high_at_length _ _ _ Hph) as [Hw Hn].
  remember (sort_values p) as s eqn:Es.
  assert (Hne : s <> []) by (intros E; rewrite E in Hn; simpl in Hn; lia).
  destruct s as [|c rest]; [congruence|].
  assert (Hrest : rest <> []) by (intros E; rewrite E in Hn; simpl in Hn; lia).
  pose proof (atr_at_value c rest Hrest) as Ha.
  destruct (avg_volume_at_value _ _ Hw Hne) as [av Hav].
  destruct (current_volume_at_value _ Hne) as [cv Hcv].
  set (a := f_rolling_mean 14 _) in Ha.
  set (size := f_sub cc ph).
  set (vol := f_of_int cv). set (bar := f_mul (3 # 2) av).
  exists (if Qle_bool size a then PartialBreakoutSmallSize
          else if Qle_bool vol bar
               then PartialBreakoutLowVolume else FullBreakout), a, av, cv.
  split; [exact Ha|]. split; [exact Hav|]. split; [exact Hcv|].
  split.
  - rewrite identify_breakout_unfold.
    assert (E : ((Z.of_nat (length df) <? lookback) = false)%Z)
      by (apply Z.ltb_ge; exact Hlen).
    rewrite E, Hp. cbn [fst]. rewrite <- Es.
    rewrite (analyse_reads _ _ _ _ Hcc Hph).
    assert (Eg : gt (Some cc) (Some ph) = true) by (apply gt_Some; exact Hgt).
    rewrite Eg. cbn [notna andb].
    rewrite Ha, Hav, Hcv. cbn [bind lift2 gt]. fold size vol bar.
    destruct (Qle_bool size a); cbn [negb]; [reflexivity|].
    destruct (Qle_bool vol bar); reflexivity.
  - assert (Hsmall : size <= a ->
                     (if Qle_bool size a then PartialBreakoutSmallSize
                      else if Qle_bool vol bar
                           then PartialBreakoutLowVolume else FullBreakout)
                     = PartialBreakoutSmallSize).
    { intros H. apply Qle_bool_iff in H. rewrite H. reflexivity. }
    assert (Hlow : a < size -> vol <= bar ->
                   (if Qle_bool size a then PartialBreakoutSmallSize
                    else if Qle_bool vol bar
                         then PartialBreakoutLowVolume else FullBreakout)
                   = PartialBreakoutLowVolume).
    { intros H1 H2. apply Qle_bool_iff in H2. rewrite H2.
      destruct (Qle_bool size a) eqn:E; [|reflexivity].
      apply Qle_bool_iff in E. exfalso. apply (Qlt_not_le _ _ H1 E). }
    split; [exact Hsmall|].
    split; [intros H; apply Hsmall; apply Qle_lteq; right; exact H|].
    split; [exact Hlow|].
    split; [intros H1 H2; apply Hlow; [exact H1 | apply Qle_lteq; right; exact H2]|].
    intros H1 H2.
    destruct (Qle_bool size a) eqn:E1.
    { apply Qle_bool_iff in E1. exfalso. apply (Qlt_not_le _ _ H1 E1). }
    destruct (Qle_bool vol bar) eqn:E2; [|reflexivity].
    apply Qle_bool_iff in E2. exfalso. apply (Qlt_not_le _ _ H2 E2).
Qed.

(** C2 -- A series with fewer than [lookback] candles is answered at once:
    not a breakout, "Insufficient Data", empty details; nothing else is
    computed, so the caller's frame is as it was (even its timestamps are
    not parsed). *)
Theorem insufficient_data_below_lookback (df : DataFrame) (lookback : Z) :
  (Z.of_nat (length df) < lookback)%Z ->
  identify_breakout df lookback = (Return (false, InsufficientData, None), df).
Proof.
  intros H. unfold identify_breakout.
  apply Z.ltb_lt in H. rewrite H. reflexivity.
Qed.

(** Where the read of the rolling high at the second-to-last position
    succeeds, a NaN there, or a last close not above it, gives
    "No Breakout" with empty details. *)
Lemma no_breakout_when_not_above (df s : DataFrame) (lookback : Z)
  (cc : Q) (ph : float) :
  (lookback <= Z.of_nat (length df))%Z ->
  sorted_frame df = Some s ->
  current_close_at s = Return cc ->
  previous_high_at s lookback = Return ph ->
  (ph = None \/ exists p, ph = Some p /\ cc <= p) ->
  fst (identify_breakout df lookback) = Return (false, NoBreakout, None).
Proof.
  intros Hlen Hs Hcc Hph Hcase.
  destruct (sorted_frame_unfold _ _ Hs) as [p [Hp ->]].
  rewrite identify_breakout_unfold.
  assert (E : ((Z.of_nat (length df) <? lookback) = false)%Z)
    by (apply Z.ltb_ge; exact Hlen).
  rewrite E, Hp. cbn [fst]. rewrite (analyse_reads _ _ _ _ Hcc Hph).
  destruct Hcase as [-> | [q [-> Hle]]]; [reflexivity|].
  apply gt_Some_false in Hle. rewrite Hle. reflexivity.
Qed.

(** A frame of one row and a lookback of 1: every timestamp parses, the
    length guard passes, and line 173 raises IndexError. *)
Lemma single_row_raises (c c' : candle) :
  parse_row c = Some c' ->
  identify_breakout [c] 1 = (Raise IndexError, [c']).
Proof.
  intros Hc. rewrite identify_breakout_unfold. simpl.
  rewrite Hc. f_equal.
  assert (Hl : length (sort_values [c']) = 1%nat) by apply sort_values_length.
  destruct (sort_values [c']) as [|d [|d' l]]; try discriminate.
  reflexivity.
Qed.

(** C10 -- With [lookback = 1] a series of exactly one candle gets no
    verdict: the length guard passes and the read of the rolling high at
    the second-to-last position is out of bounds (IndexError; when the
    timestamp does not even parse, the parser's error comes first).  A
    verdict is returned only for series of at least 2 candles or of fewer
    than [lookback] candles. *)
Theorem single_candle_gets_no_verdict :
  (forall c : candle, exists e, fst (identify_breakout [c] 1) = Raise e) /\
  (forall c c' : candle,
     parse_row c = Some c' ->
     fst (identify_breakout [c] 1) = Raise IndexError) /\
  (forall (df : DataFrame) (lookback : Z) (v : verdict),
     fst (identify_breakout df lookback) = Return v ->
     (Z.of_nat (length df) < lookback)%Z \/ (2 <= length df)%nat).
Proof.
  split; [|split].
  - intros c. destruct (parse_row c) as [c'|] eqn:E.
    + exists IndexError. rewrite (single_row_raises _ _ E). reflexivity.
    + exists ValueError. rewrite identify_breakout_unfold. simpl.
      rewrite E. reflexivity.
  - intros c c' E. rewrite (single_row_raises _ _ E). reflexivity.
  - intros df lookback v H. rewrite identify_breakout_unfold in H.
    destruct (Z.ltb_spec (Z.of_nat (length df)) lookback) as [Hlt|Hge];
      [left; exact Hlt | right].
    destruct (parse_rows df) as [p|] eqn:Ep; [|discriminate].
    cbn [fst] in H. apply analyse_return in H. destruct H as [_ H].
    rewrite sort_values_length in H.
    rewrite (parse_rows_length _ _ Ep) in H. exact H.
Qed.

End ClassifierClaims.

(** ** Sorting *)

Lemma stamp_le_trans : Relations_1.Transitive stamp_le.
Proof. intros a b c. unfold stamp_le. lia. Qed.

(** Two sorted frames with the same rows and no repeated instant are the
    same frame. *)
Lemma sorted_unique (l1 l2 : DataFrame) :
  StronglySorted stamp_le l1 -> StronglySorted stamp_le l2 ->
  Permutation l1 l2 -> NoDup (map stamp l1) -> l1 = l2.
Proof.
  revert l2. induction l1 as [|x l1 IH]; intros l2 S1 S2 P N.
  - apply Permutation_nil in P. now subst.
  - destruct l2 as [|y l2].
    { apply Permutation_sym, Permutation_nil in P. discriminate. }
    inversion S1 as [|? ? S1' F1]; subst.
    inversion S2 as [|? ? S2' F2]; subst.
    inversion N as [|? ? Nx N']; subst.
    assert (Hxy : x = y).
    { assert (Hx : In x (y :: l2))
        by (eapply Permutation_in; [exact P | left; reflexivity]).
      assert (Hy : In y (x :: l1))
        by (eapply Permutation_in;
            [apply Permutation_sym; exact P | left; reflexivity]).
      destruct Hy as [Hy|Hy]; [exact Hy|].
      destruct Hx as [Hx|Hx]; [now symmetry|].
      rewrite Forall_forall in F1, F2.
      pose proof (F1 _ Hy) as L1. pose proof (F2 _ Hx) as L2.
      unfold stamp_le in L1, L2.
      exfalso. apply Nx.
      replace (stamp x) with (stamp y) by lia.
      apply in_map. exact Hy. }
    subst y. f_equal. apply IH; try assumption.
    eapply Permutation_cons_inv. exact P.
Qed.

Lemma strictly_sorted_nodup (l : DataFrame) :
  StronglySorted stamp_lt l -> NoDup (map stamp l).
Proof.
  induction 1 as [|x l S IH F]; simpl; constructor; [|exact IH].
  intros Hin. apply in_map_iff in Hin. destruct Hin as [y [E Hy]].
  rewrite Forall_forall in F. specialize (F _ Hy). unfold stamp_lt in F. lia.
Qed.

Lemma strictly_sorted_sorted (l : DataFrame) :
  StronglySorted stamp_lt l -> StronglySorted stamp_le l.
Proof.
  induction 1 as [|x l S IH F]; constructor; [exact IH|].
  eapply Forall_impl; [|exact F]. unfold stamp_lt, stamp_le. intros; lia.
Qed.

Section SortFacts.
Context {PD : Pandas} {AR : Arith}.

Lemma sort_values_strongly_sorted (df : DataFrame) :
  StronglySorted stamp_le (sort_values df).
Proof.
  apply Sorted_StronglySorted; [exact stamp_le_trans | apply sort_values_sorted].
Qed.

Lemma sort_values_shuffle (p p' : DataFrame) :
  Permutation p p' -> NoDup (map stamp p) -> sort_values p = sort_values p'.
Proof.
  intros P N. apply sorted_unique; try apply sort_values_strongly_sorted.
  - eapply perm_trans; [apply sort_values_perm|].
    eapply perm_trans; [exact P | apply Permutation_sym, sort_values_perm].
  - eapply Permutation_NoDup; [|exact N].
    apply Permutation_map, Permutation_sym, sort_values_perm.
Qed.

Lemma sort_values_sorted_id (df : DataFrame) :
  StronglySorted stamp_lt df -> sort_values df = df.
Proof.
  intros S. apply sorted_unique.
  - apply sort_values_strongly_sorted.
  - apply strictly_sorted_sorted, S.
  - apply sort_values_perm.
  - eapply Permutation_NoDup; [|apply strictly_sorted_nodup, S].
    apply Permutation_map, Permutation_sym, sort_values_perm.
Qed.

(** ** Line 168 *)

Lemma parse_row_instant (c c' : candle) :
  parse_row c = Some c' ->
  instant (timestamp c) = Some (stamp c') /\
  is_datetime c' /\ prices c' = prices c.
Proof.
  unfold parse_row, to_datetime1, instant, is_datetime, stamp.
  destruct (timestamp c) as [txt|t]; simpl.
  - destruct (parse_datetime txt) as [t|]; simpl; [|discriminate].
    intros H. injection H as <-. simpl. repeat split. now exists t.
  - intros H. injection H as <-. simpl. repeat split. now exists t.
Qed.

Lemma parse_row_datetime (c : candle) :
  is_datetime c -> parse_row c = Some c.
Proof.
  intros [t Ht]. unfold parse_row, to_datetime1. rewrite Ht. simpl.
  destruct c as [ts o h l cl v]. simpl in Ht. subst ts. reflexivity.
Qed.

Lemma parse_rows_instants (df p : DataFrame) :
  parse_rows df = Some p ->
  map (fun c => instant (timestamp c)) df = map Some (map stamp p) /\
  map prices p = map prices df.
Proof.
  revert p. induction df as [|c df IH]; simpl; intros p H.
  - injection H as <-. split; reflexivity.
  - destruct (parse_row c) as [c'|] eqn:Ec; [|discriminate].
    destruct (parse_rows df) as [p'|]; [|discriminate].
    injection H as <-. destruct (IH p' eq_refl) as [IH1 IH2].
    destruct (parse_row_instant _ _ Ec) as [Hi [_ Hp]].
    simpl. rewrite Hi, IH1, Hp, IH2. split; reflexivity.
Qed.

Lemma parse_rows_datetime (df : DataFrame) :
  Forall is_datetime df -> parse_rows df = Some df.
Proof.
  induction 1 as [|c df Hc _ IH]; simpl; [reflexivity|].
  rewrite (parse_row_datetime _ Hc), IH. reflexivity.
Qed.

Lemma parse_rows_perm (df df' : DataFrame) :
  Permutation df df' ->
  match parse_rows df, parse_rows df' with
  | Some p, Some p' => Permutation p p'
  | None, None => True
  | _, _ => False
  end.
Proof.
  induction 1 as [|x l l' P IH|x y l|l l' l'' P1 IH1 P2 IH2]; simpl.
  - constructor.
  - destruct (parse_row x); [|exact I].
    destruct (parse_rows l), (parse_rows l'); try exact IH; try exact I.
    apply perm_skip, IH.
  - destruct (parse_row x), (parse_row y), (parse_rows l);
      try exact I. apply perm_swap.
  - destruct (parse_rows l), (parse_rows l'), (parse_rows l'');
      try exact I; try contradiction.
    eapply perm_trans; eassumption.
Qed.

End SortFacts.

Section MoreClassifierClaims.
Context {PD : Pandas} {AR : Arith}.

Lemma analyse_return_reads (s : DataFrame) (lookback : Z) (v : verdict) :
  analyse s lookback = Return v ->
  exists cc ph, current_close_at s = Return cc /\
                previous_high_at s lookback = Return ph.
Proof.
  unfold analyse, current_close_at, previous_high_at. intros H.
  destruct (highest_high s lookback) as [hh|e]; [|discriminate].
  cbn [bind] in *.
  destruct (iloc (column close s) (-1)) as [cc|e]; [|discriminate].
  cbn [bind] in H.
  destruct (iloc hh (-2)) as [ph|e]; [|discriminate].
  exists cc, ph. split; reflexivity.
Qed.

(** The [atr] of a breakout verdict is the ATR column at the last
    position. *)
Lemma breakout_verdict_atr (s : DataFrame) (lookback : Z)
  (category : string) (m : metrics) :
  analyse s lookback = Return (true, category, Some m) ->
  atr_at s = Return (atr m).
Proof.
  intros H. destruct (analyse_return_reads _ _ _ H) as [cc [ph [Hcc Hph]]].
  rewrite (analyse_reads _ _ _ _ Hcc Hph) in H.
  destruct (notna ph && gt (Some cc) ph); [|discriminate].
  destruct (atr_at s) as [a|e]; [|discriminate]. cbn [bind] in H.
  destruct (avg_volume_at s lookback) as [av|e]; [|discriminate].
  cbn [bind] in H.
  destruct (current_volume_at s) as [cv|e]; [|discriminate].
  cbn [bind] in H.
  destruct (gt (lift2 f_sub (Some cc) ph) a);
    [destruct (gt (Some (f_of_int cv)) (lift2 f_mul (Some (3 # 2)) av))|];
    injection H as _ <-; reflexivity.
Qed.

(** C4, as the code has it -- In a breakout verdict the true range of
    every candle but the first is
    [max(high - low, |high - prev_close|, |low - prev_close|)] with
    [prev_close] the close of the candle before (the differences in
    binary64); the first candle has no true range (NaN, not
    [high - low]); and [atr] is the value at the last position of the
    14-candle, at-least-1-sample rolling mean of that column, a number,
    whose window holds the true ranges that exist among the last 14
    candles of the sorted series and not the first candle's. *)
Theorem atr_is_mean_of_defined_true_ranges (df s : DataFrame) (lookback : Z)
  (category : string) (m : metrics) :
  sorted_frame df = Some s ->
  fst (identify_breakout df lookback) = Return (true, category, Some m) ->
  exists c rest,
    s = c :: rest /\
    true_range s = None :: map Some (true_ranges_from (close c) rest) /\
    defined_true_ranges s = true_ranges_from (close c) rest /\
    atr_at s = Return (atr m) /\
    atr m = Some (f_rolling_mean 14 (true_range s)) /\
    valid (window_at 14 (true_range s) (length s - 1)) =
      skipn (length (defined_true_ranges s) - 14) (defined_true_ranges s).
Proof.
  intros Hs H.
  destruct (sorted_frame_unfold _ _ Hs) as [p [Hp ->]].
  rewrite identify_breakout_unfold in H.
  destruct (Z.of_nat (length df) <? lookback)%Z; [discriminate|].
  rewrite Hp in H. cbn [fst] in H.
  destruct (analyse_return _ _ _ H) as [_ Hn].
  pose proof (breakout_verdict_atr _ _ _ _ H) as Ha.
  destruct (sort_values p) as [|c rest]; [simpl in Hn; lia|].
  assert (Hrest : rest <> []) by (intros E; rewrite E in Hn; simpl in Hn; lia).
  exists c, rest. split; [reflexivity|].
  split; [apply true_range_cons|]. split; [reflexivity|].
  split; [exact Ha|].
  rewrite (atr_at_value c rest Hrest) in Ha.
  injection Ha as Ha. split; [symmetry; exact Ha|].
  rewrite atr_window. simpl defined_true_ranges.
  rewrite true_ranges_from_length. reflexivity.
Qed.

(** C8 -- Shuffling a series with pairwise distinct timestamps does not
    change what the classifier answers: the same verdict (flag, category
    and details), or the same exception. *)
Theorem verdict_invariant_under_shuffle (df df' : DataFrame) (lookback : Z) :
  Permutation df df' ->
  NoDup (map (fun c => instant (timestamp c)) df) ->
  fst (identify_breakout df lookback) = fst (identify_breakout df' lookback).
Proof.
  intros P N. rewrite !identify_breakout_unfold.
  rewrite <- (Permutation_length P).
  destruct (Z.of_nat (length df) <? lookback)%Z; [reflexivity|].
  pose proof (parse_rows_perm _ _ P) as PP.
  destruct (parse_rows df) as [p|] eqn:Ep, (parse_rows df') as [p'|];
    try contradiction; [|reflexivity].
  cbn [fst]. f_equal. apply sort_values_shuffle; [exact PP|].
  destruct (parse_rows_instants _ _ Ep) as [Hi _].
  rewrite Hi in N. apply NoDup_map_inv in N. exact N.
Qed.

(** C9, as the code has it -- The call leaves the caller's series with
    the same rows in the same order and with every open, high, low, close
    and volume as it was; only the timestamp column may change, each text
    being replaced by the datetime it parses to (nothing at all changes
    when the timestamps are datetimes already, when one of them does not
    parse, or when the series is shorter than [lookback]).  What is
    returned depends on the series and [lookback] alone, and on a series
    whose timestamps are already strictly ascending the sort of line 169
    changes nothing: the verdict is computed from the rows as they were
    passed. *)
Theorem caller_frame_only_gets_parsed_timestamps :
  (forall df lookback,
     snd (identify_breakout df lookback) = df \/
     ((lookback <= Z.of_nat (length df))%Z /\
      parse_rows df = Some (snd (identify_breakout df lookback)))) /\
  (forall df lookback,
     map prices (snd (identify_breakout df lookback)) = map prices df) /\
  (forall df lookback,
     Forall is_datetime df -> snd (identify_breakout df lookback) = df) /\
  (forall df1 df2 lookback,
     df1 = df2 -> identify_breakout df1 lookback = identify_breakout df2 lookback) /\
  (forall df p lookback,
     parse_rows df = Some p -> StronglySorted stamp_lt p ->
     (lookback <= Z.of_nat (length df))%Z ->
     sort_values p = p /\
     identify_breakout df lookback = (analyse p lookback, p)).
Proof.
  assert (Hcases : forall df lookback,
     snd (identify_breakout df lookback) = df \/
     ((lookback <= Z.of_nat (length df))%Z /\
      parse_rows df = Some (snd (identify_breakout df lookback)))).
  { intros df lookback. rewrite identify_breakout_unfold.
    destruct (Z.ltb_spec (Z.of_nat (length df)) lookback) as [Hlt|Hge];
      [left; reflexivity|].
    destruct (parse_rows df) as [p|]; [right | left; reflexivity].
    split; [exact Hge | reflexivity]. }
  split; [exact Hcases|]. split; [|split; [|split]].
  - intros df lookback. destruct (Hcases df lookback) as [-> | [_ Hp]];
      [reflexivity|].
    apply parse_rows_instants in Hp. apply Hp.
  - intros df lookback Hd. destruct (Hcases df lookback) as [E | [_ Hp]];
      [exact E|].
    rewrite (parse_rows_datetime _ Hd) in Hp. now injection Hp.
  - intros df1 df2 lookback ->. reflexivity.
  - intros df p lookback Hp Hs Hlen.
    split; [apply sort_values_sorted_id, Hs|].
    rewrite identify_breakout_unfold.
    assert (E : ((Z.of_nat (length df) <? lookback) = false)%Z)
      by (apply Z.ltb_ge; exact Hlen).
    rewrite E, Hp.
    rewrite (sort_values_sorted_id _ Hs). reflexivity.
Qed.

End MoreClassifierClaims.

(** C3, at the input where the code departs from it -- one candle and
    [lookback = 1]: the series is not shorter than [lookback], there is no
    rolling high at a second-to-last position, and the call raises
    IndexError where "No Breakout" is expected. *)
Theorem one_candle_raises_index_error :
  (1 <= Z.of_nat (length one_candle))%Z /\
  previous_high_at one_candle 1 = Raise IndexError /\
  fst (identify_breakout one_candle 1) = Raise IndexError /\
  fst (identify_breakout one_candle 1) <> Return (false, NoBreakout, None).
Proof.
  split; [simpl; lia|]. split; [reflexivity|]. split; [reflexivity|].
  discriminate.
Qed.

(** C4 as worded fails on [two_candles]: the first true range is NaN,
    not [high - low = 5], so the ATR is the second true range alone, 12,
    not the mean 17/2 of the two. *)
Lemma first_true_range_is_missing :
  sorted_frame two_candles = Some two_candles /\
  claimed_true_ranges two_candles = [5; 12] /\
  true_range two_candles = [None; Some 12] /\
  verdict_category (fst (identify_breakout two_candles 2))
    = Some PartialBreakoutSmallSize /\
  option_map atr (verdict_details (fst (identify_breakout two_candles 2)))
    = Some (Some 12) /\
  claimed_atr two_candles == 17 # 2 /\
  ~ 12 == claimed_atr two_candles.
Proof.
  split; [vm_compute; reflexivity|]. split; [vm_compute; reflexivity|].
  split; [vm_compute; reflexivity|]. split; [vm_compute; reflexivity|].
  split; [vm_compute; reflexivity|].
  split; [vm_compute; reflexivity|]. intros H. vm_compute in H. discriminate.
Qed.

(** C9 as worded fails on [two_candles_text]: after the call the
    caller's timestamps are datetimes, no longer the texts passed in. *)
Lemma caller_frame_is_modified :
  snd (identify_breakout two_candles_text 2) =
    [mkCandle (TsStamp 20240102) 19 20 9 19 100;
     mkCandle (TsStamp 20240101) 8 10 5 8 100] /\
  snd (identify_breakout two_candles_text 2) <> two_candles_text.
Proof.
  split; [reflexivity|]. discriminate.
Qed.

(** ** The scan *)

Section ScanFacts.
Context {PD : Pandas} {AR : Arith} {BR : Broker}.

(** One attempt, case by case. *)
Lemma attempt_run (symbol token : string) (s : ScanState) :
  attempt symbol token s =
  match get_historical_data token (world s) with
  | (Raise _, w) => (Return false, failed token w s)
  | (Return (Some (c :: df)), w) =>
      match fst (identify_breakout (c :: df) 20) with
      | Return (true, breakout_type, details) =>
          (Return true, fetched token w [mkStock symbol breakout_type details] s)
      | Return (false, _, _) => (Return true, fetched token w [] s)
      | Raise _ => (Return false, failed token w s)
      end
  | (Return _, w) => (Return true, fetched token w [] s)
  end.
Proof.
  unfold attempt, try_except, bindM, fetch, failed, fetched.
  destruct (get_historical_data token (world s)) as [[[[|c df]|]|e] w];
    cbn; rewrite ?app_nil_r, <- ?app_assoc; try reflexivity.
  unfold lift.
  destruct (fst (identify_breakout (c :: df) 20)) as [[[[|] cat] det]|e];
    cbn; rewrite ?app_nil_r, <- ?app_assoc; reflexivity.
Qed.

(** Closes a [progress] goal once its three witnesses are given. *)
Ltac progress_by k evs added :=
  exists k, evs, added;
  repeat split; cbn; rewrite ?app_nil_r;
  try reflexivity; try lia; try constructor.

Lemma progress_refl (symbol : string) (s : ScanState) : progress symbol 0 s s.
Proof.
  progress_by 0%nat (@nil event) (@nil stock).
Qed.

Lemma fetches_app (a b : list event) : fetches (a ++ b) = (fetches a + fetches b)%nat.
Proof. unfold fetches. rewrite filter_app, length_app. reflexivity. Qed.

Lemma progress_trans (symbol : string) (n m : nat) (s s' s'' : ScanState) :
  progress symbol n s s' -> progress symbol m s' s'' ->
  progress symbol (n + m) s s''.
Proof.
  intros (k1 & e1 & a1 & Hk1 & Hd1 & Ht1 & Hf1 & Hb1 & Hg1)
         (k2 & e2 & a2 & Hk2 & Hd2 & Ht2 & Hf2 & Hb2 & Hg2).
  exists (k1 + k2)%nat, (e1 ++ e2), (a1 ++ a2).
  split; [lia|]. split.
  { rewrite Hd2, Hd1, Nat2Z.inj_add, Z.pow_add_r by lia. ring. }
  split; [rewrite Ht2, Ht1, app_assoc; reflexivity|].
  split; [rewrite fetches_app; lia|].
  split; [rewrite Hb2, Hb1, app_assoc; reflexivity|].
  apply Forall_app. split; assumption.
Qed.

Lemma progress_weaken (symbol : string) (n m : nat) (s s' : ScanState) :
  (n <= m)%nat -> progress symbol n s s' -> progress symbol m s s'.
Proof.
  intros Hnm (k & e & a & Hk & Hd & Ht & Hf & Hb & Hg).
  exists k, e, a. repeat split; try assumption; lia.
Qed.

Lemma attempt_progress (symbol token : string) (s : ScanState) :
  exists b s', attempt symbol token s = (Return b, s') /\ progress symbol 1 s s'.
Proof.
  rewrite attempt_run.
  assert (Hfail : forall w, progress symbol 1 s (failed token w s)).
  { intros w.
    progress_by 1%nat [Fetch token; Sleep (delay s * 2)%Z] (@nil stock). }
  assert (Hok : forall w, progress symbol 1 s (fetched token w [] s)).
  { intros w. progress_by 0%nat [Fetch token] (@nil stock). }
  destruct (get_historical_data token (world s)) as [[[[|c df]|]|e] w];
    try (eexists; eexists; split; [reflexivity | auto]).
  destruct (fst (identify_breakout (c :: df) 20)) as [[[[|] cat] det]|e] eqn:E;
    try (eexists; eexists; split; [reflexivity | auto]).
  exists 0%nat, [Fetch token], [mkStock symbol cat det].
  split; [lia|]. split; [cbn; lia|]. split; [reflexivity|].
  split; [cbn; lia|]. split; [reflexivity|].
  constructor; [|constructor]. split; [reflexivity|].
  exists (c :: df). split; [discriminate | exact E].
Qed.

Lemma retry_progress (n : nat) (symbol token : string) (s : ScanState) :
  exists s', retry n symbol token s = (Return tt, s') /\ progress symbol n s s'.
Proof.
  revert s. induction n as [|n IH]; intros s; simpl.
  - exists s. split; [reflexivity | apply progress_refl].
  - unfold bindM.
    destruct (attempt_progress symbol token s) as (b & s1 & E1 & P1).
    rewrite E1. destruct b.
    + exists s1. split; [reflexivity|].
      eapply progress_weaken; [|exact P1]. lia.
    + destruct (IH s1) as (s2 & E2 & P2). exists s2.
      split; [exact E2|]. apply (progress_trans _ 1 n _ _ _ P1 P2).
Qed.

Lemma sleep_delay_progress (symbol : string) (s : ScanState) :
  progress symbol 0 s (snd (sleep_delay s)).
Proof.
  progress_by 0%nat [Sleep (delay s)] (@nil stock).
Qed.

Lemma scan_symbol_progress (symbol : string) (s : ScanState) :
  exists s', scan_symbol symbol s = (Return tt, s') /\ progress symbol 3 s s'.
Proof.
  unfold scan_symbol, bindM.
  destruct (get_symbol_token symbol) as [token|].
  - destruct (retry_progress 3 symbol token s) as (s1 & E1 & P1).
    rewrite E1. eexists. split; [reflexivity|].
    apply (progress_trans _ 3 0 _ _ _ P1 (sleep_delay_progress symbol s1)).
  - unfold ret. eexists. split; [reflexivity|].
    apply (progress_weaken symbol 0 3); [lia|].
    apply (sleep_delay_progress symbol s).
Qed.

(** The whole loop returns, and only adds breakout answers for the
    symbols it was given. *)
Lemma scan_loop_returns (symbols : list string) (s : ScanState) :
  exists s' added,
    scan_loop symbols s = (Return tt, s') /\
    breakout_stocks s' = breakout_stocks s ++ added /\
    Forall (fun d => In (stock_symbol d) symbols /\
                     from_breakout (stock_symbol d) d) added /\
    (fetches (trace s') <= fetches (trace s) + 3 * length symbols)%nat.
Proof.
  revert s. induction symbols as [|symbol rest IH]; intros s; simpl.
  - exists s, []. rewrite app_nil_r.
    repeat split; cbn; try lia. constructor.
  - unfold bindM.
    destruct (scan_symbol_progress symbol s)
      as (s1 & E1 & k & evs & a1 & _ & _ & Ht & Hf & Hb & Hg).
    rewrite E1. destruct (IH s1) as (s2 & a2 & E2 & Hb2 & Hg2 & Hf2).
    exists s2, (a1 ++ a2). split; [exact E2|].
    split; [rewrite Hb2, Hb, app_assoc; reflexivity|].
    split.
    + apply Forall_app. split.
      * eapply Forall_impl; [|exact Hg]. intros d Hd.
        pose proof Hd as [Hsym _]. rewrite Hsym.
        split; [left; reflexivity | exact Hd].
      * eapply Forall_impl; [|exact Hg2]. intros d [Hin Hd].
        split; [right; exact Hin | exact Hd].
    + rewrite Ht, fetches_app in Hf2. lia.
Qed.

(** Over any run of symbols the delay is only ever doubled. *)
Lemma scan_loop_delay (symbols : list string) (s : ScanState) :
  exists k, (k <= 3 * length symbols)%nat /\
    delay (snd (scan_loop symbols s)) = (delay s * 2 ^ Z.of_nat k)%Z.
Proof.
  revert s. induction symbols as [|symbol rest IH]; intros s; simpl.
  - exists 0%nat. split; [lia | cbn; lia].
  - unfold bindM.
    destruct (scan_symbol_progress symbol s)
      as (s1 & E1 & k1 & evs & a1 & Hk1 & Hd1 & _).
    rewrite E1. destruct (IH s1) as (k2 & Hk2 & Hd2).
    exists (k1 + k2)%nat. split; [lia|].
    rewrite Hd2, Hd1, Nat2Z.inj_add, Z.pow_add_r by lia. ring.
Qed.

End ScanFacts.

Section ScanClaims.
Context {PD : Pandas} {AR : Arith} {BR : Broker}.

(** A verdict with [is_breakout] true carries one of the three breakout
    categories and non-empty details. *)
Lemma breakout_answer (df : DataFrame) (lookback : Z)
  (category : string) (details : option metrics) :
  fst (identify_breakout df lookback) = Return (true, category, details) ->
  (category = FullBreakout \/ category = PartialBreakoutLowVolume \/
   category = PartialBreakoutSmallSize) /\
  exists m, details = Some m.
Proof.
  rewrite identify_breakout_unfold.
  destruct (Z.of_nat (length df) <? lookback)%Z; [discriminate|].
  destruct (parse_rows df) as [p|]; [|discriminate]. cbn [fst]. intros H.
  destruct (analyse_return_reads _ _ _ H) as [cc [ph [Hcc Hph]]].
  rewrite (analyse_reads _ _ _ _ Hcc Hph) in H.
  destruct (notna ph && gt (Some cc) ph); [|discriminate].
  destruct (atr_at (sort_values p)) as [a|e]; [|discriminate].
  cbn [bind] in H.
  destruct (avg_volume_at (sort_values p) lookback) as [av|e]; [|discriminate].
  cbn [bind] in H.
  destruct (current_volume_at (sort_values p)) as [cv|e]; [|discriminate].
  cbn [bind] in H.
  destruct (gt (lift2 f_sub (Some cc) ph) a);
    [destruct (gt (Some (f_of_int cv)) (lift2 f_mul (Some (3 # 2)) av))|];
    injection H as <- <-; (split; [tauto | eexists; reflexivity]).
Qed.

Lemma scan_symbol_found (symbol token : string) (s : ScanState) :
  get_symbol_token symbol = Some token ->
  scan_symbol symbol s =
  match retry 3 symbol token s with
  | (Return _, s') => sleep_delay s'
  | (Raise e, s') => (Raise e, s')
  end.
Proof. intros H. unfold scan_symbol, bindM. rewrite H. reflexivity. Qed.

(** C5, as the code has it -- The delay starts at 1, is doubled at every
    failed attempt and only then slept, so the sleep after a failure
    lasts the doubled delay; a symbol leaves the delay at the value it
    reached (the delay it found times 2 for each of its at most 3
    failures) and the following symbols go on from there: it is never
    reset.  For a symbol whose fetch fails twice and succeeds on the
    third attempt, exactly two backoff sleeps come before the successful
    fetch, of 2 and 4 times the delay found (2 then 4 time units from the
    initial delay), the verdict is computed from the third response, and
    the pause before the next symbol lasts 4 times the delay found. *)
Theorem backoff_doubles_then_sleeps :
  (forall w, delay (init w) = 1%Z) /\
  (forall symbol s,
     exists k, (k <= 3)%nat /\
       delay (snd (scan_symbol symbol s)) = (delay s * 2 ^ Z.of_nat k)%Z) /\
  (forall symbols s,
     exists k, (k <= 3 * length symbols)%nat /\
       delay (snd (scan_loop symbols s)) = (delay s * 2 ^ Z.of_nat k)%Z) /\
  (forall symbol token s e1 e2 w1 w2 w3 df is_breakout breakout_type details,
     get_symbol_token symbol = Some token ->
     get_historical_data token (world s) = (Raise e1, w1) ->
     get_historical_data token w1 = (Raise e2, w2) ->
     get_historical_data token w2 = (Return (Some df), w3) ->
     df <> [] ->
     fst (identify_breakout df 20) =
       Return (is_breakout, breakout_type, details) ->
     scan_symbol symbol s =
       (Return tt,
        mkScan w3
          (breakout_stocks s ++
           (if is_breakout : bool
            then [mkStock symbol breakout_type details] else []))
          (delay s * 4)
          (trace s ++ [Fetch token; Sleep (delay s * 2);
                       Fetch token; Sleep (delay s * 4);
                       Fetch token; Sleep (delay s * 4)]))).
Proof.
  split; [reflexivity|]. split; [|split].
  - intros symbol s.
    destruct (scan_symbol_progress symbol s)
      as (s' & E & k & evs & added & Hk & Hd & _).
    exists k. rewrite E. split; [exact Hk | exact Hd].
  - exact scan_loop_delay.
  - intros symbol token s e1 e2 w1 w2 w3 df is_breakout breakout_type details
           Htok H1 H2 H3 Hne Hv.
    rewrite (scan_symbol_found _ _ _ Htok).
    cbn [retry]. unfold bindM.
    rewrite attempt_run, H1.
    rewrite attempt_run. cbn [world failed]. rewrite H2.
    rewrite attempt_run. cbn [world failed]. rewrite H3.
    destruct df as [|c df]; [congruence|]. rewrite Hv.
    unfold ret, sleep_delay, fetched.
    destruct is_breakout; cbn; rewrite ?app_nil_r, <- ?app_assoc; cbn;
      replace (delay s * 2 * 2)%Z with (delay s * 4)%Z by lia; reflexivity.
Qed.

(** C6 -- What the connector raises is caught at each attempt and the
    fetch is tried again, three times at most for a symbol; a response
    with no data (None or an empty frame) ends the symbol's attempts at
    once, without retry or backoff; after three failures the symbol is
    left with nothing recorded; and whatever the connector does, the scan
    returns. *)
Theorem fetch_failures_stay_inside_the_scan :
  (forall symbol token s e1 e2 e3 w1 w2 w3,
     get_symbol_token symbol = Some token ->
     get_historical_data token (world s) = (Raise e1, w1) ->
     get_historical_data token w1 = (Raise e2, w2) ->
     get_historical_data token w2 = (Raise e3, w3) ->
     scan_symbol symbol s =
       (Return tt,
        mkScan w3 (breakout_stocks s) (delay s * 8)
          (trace s ++ [Fetch token; Sleep (delay s * 2);
                       Fetch token; Sleep (delay s * 4);
                       Fetch token; Sleep (delay s * 8);
                       Sleep (delay s * 8)]))) /\
  (forall symbol token s r w1,
     get_symbol_token symbol = Some token ->
     get_historical_data token (world s) = (Return r, w1) ->
     r = None \/ r = Some [] ->
     scan_symbol symbol s =
       (Return tt,
        mkScan w1 (breakout_stocks s) (delay s)
          (trace s ++ [Fetch token; Sleep (delay s)]))) /\
  (forall symbol s,
     exists s', scan_symbol symbol s = (Return tt, s') /\
       exists evs, trace s' = trace s ++ evs /\ (fetches evs <= 3)%nat) /\
  (forall symbols w,
     exists stocks s', scan_for_breakouts symbols w = (Return stocks, s')).
Proof.
  split; [|split; [|split]].
  - intros symbol token s e1 e2 e3 w1 w2 w3 Htok H1 H2 H3.
    rewrite (scan_symbol_found _ _ _ Htok).
    cbn [retry]. unfold bindM.
    rewrite attempt_run, H1.
    rewrite attempt_run. cbn [world failed]. rewrite H2.
    rewrite attempt_run. cbn [world failed]. rewrite H3.
    unfold ret, sleep_delay. cbn. rewrite <- ?app_assoc. cbn.
    replace (delay s * 2 * 2 * 2)%Z with (delay s * 8)%Z by lia.
    replace (delay s * 2 * 2)%Z with (delay s * 4)%Z by lia. reflexivity.
  - intros symbol token s r w1 Htok H1 Hr.
    rewrite (scan_symbol_found _ _ _ Htok).
    cbn [retry]. unfold bindM. rewrite attempt_run, H1.
    unfold ret, sleep_delay, fetched.
    destruct Hr as [-> | ->]; cbn; rewrite ?app_nil_r, <- ?app_assoc;
      reflexivity.
  - intros symbol s.
    destruct (scan_symbol_progress symbol s)
      as (s' & E & k & evs & added & _ & _ & Ht & Hf & _).
    exists s'. split; [exact E|]. exists evs. split; assumption.
  - intros symbols w. unfold scan_for_breakouts.
    destruct (scan_loop_returns symbols (init w)) as (s' & added & E & _).
    rewrite E. eexists. eexists. reflexivity.
Qed.


End ScanClaims.

(** ** The scan with the repository's connector *)

Section AngelOne.
Context {PD : Pandas} {AR : Arith} (API : SmartApi).

(** The connector of the repository never raises. *)
Lemma angel_one_never_raises (symbol_token : string) (n : Session) :
  exists r, fst (angel_get_historical_data symbol_token n) = Return r.
Proof.
  unfold angel_get_historical_data.
  destruct (getCandleData symbol_token n) as [[[|[|c rows]]|e] n'];
    eexists; reflexivity.
Qed.

(** So with it an SDK error is not retried: the symbol is passed over
    after one fetch, without backoff. *)
Lemma angel_one_error_is_not_retried (symbol token : string)
  (s : @ScanState (angel_one API)) (e : exn) (n' : Session) :
  angel_get_symbol_token symbol = Some token ->
  getCandleData token (world s) = (Raise e, n') ->
  @scan_symbol PD AR (angel_one API) symbol s =
    (Return tt,
     mkScan (BR := angel_one API) n' (breakout_stocks s) (delay s)
            (trace s ++ [Fetch token; Sleep (delay s)])).
Proof.
  intros Htok H.
  rewrite (@scan_symbol_found PD AR (angel_one API) symbol token s Htok).
  cbn [retry]. unfold bindM. rewrite attempt_run.
  cbn [get_historical_data angel_one]. unfold angel_get_historical_data.
  rewrite H. unfold ret, sleep_delay, fetched. cbn.
  rewrite ?app_nil_r, <- ?app_assoc. reflexivity.
Qed.

End AngelOne.

(** ** The model at work *)

Example scenario_a_full_breakout :
  verdict_category (fst (identify_breakout scenario_a 20)) = Some FullBreakout /\
  option_map current_close (verdict_details (fst (identify_breakout scenario_a 20)))
    = Some 150 /\
  option_map previous_high (verdict_details (fst (identify_breakout scenario_a 20)))
    = Some (Some 101) /\
  option_map breakout_size (verdict_details (fst (identify_breakout scenario_a 20)))
    = Some (Some (150 - 101)) /\
  option_map current_volume (verdict_details (fst (identify_breakout scenario_a 20)))
    = Some 3000%Z.
Proof.
  split; [vm_compute; reflexivity|]. split; [vm_compute; reflexivity|].
  split; [vm_compute; reflexivity|]. split; vm_compute; reflexivity.
Qed.

(** At [breakout_size = atr] exactly the breakout is of small size. *)
Example size_equals_atr_is_small :
  verdict_category (fst (identify_breakout size_equals_atr 2))
    = Some PartialBreakoutSmallSize /\
  option_map breakout_size (verdict_details (fst (identify_breakout size_equals_atr 2)))
    = Some (Some (20 - 10)) /\
  option_map atr (verdict_details (fst (identify_breakout size_equals_atr 2)))
    = Some (Some (agg_mean [10])) /\
  20 - 10 == agg_mean [10].
Proof.
  split; [vm_compute; reflexivity|]. split; [vm_compute; reflexivity|].
  split; vm_compute; reflexivity.
Qed.

(** Above the ATR, at [current_volume = 1.5 * avg_volume] exactly the
    breakout is of low volume. *)
Example volume_at_threshold_is_low :
  verdict_category (fst (identify_breakout volume_at_threshold 3))
    = Some PartialBreakoutLowVolume /\
  option_map atr (verdict_details (fst (identify_breakout volume_at_threshold 3)))
    = Some (Some (agg_mean [0; 10])) /\
  agg_mean [0; 10] < 20 - 10 /\
  option_map avg_volume
    (verdict_details (fst (identify_breakout volume_at_threshold 3)))
    = Some (Some (agg_mean [inject_Z 100; inject_Z 100; inject_Z 200])) /\
  inject_Z 200 == (3 # 2) * agg_mean [inject_Z 100; inject_Z 100; inject_Z 200].
Proof.
  split; [vm_compute; reflexivity|]. split; [vm_compute; reflexivity|].
  split; [vm_compute; reflexivity|]. split; vm_compute; reflexivity.
Qed.

Example volume_above_threshold_is_full :
  verdict_category (fst (identify_breakout volume_above_threshold 3))
    = Some FullBreakout.
Proof. vm_compute. reflexivity. Qed.

(** [round64] at a decimal that is no double, at doubles, at two ties
    and below the smallest double. *)
Example round64_samples :
  round64 (1 # 10) = 3602879701896397 # 36028797018963968 /\
  round64 (5 # 4) = 5 # 4 /\
  round64 (round64 (101 # 100)) = round64 (101 # 100) /\
  round64 (inject_Z 9007199254740993) = inject_Z 9007199254740992 /\
  round64 (inject_Z 9007199254740995) = inject_Z 9007199254740996 /\
  round64 (- (1 # 3)) = - (6004799503160661 # 18014398509481984) /\
  round64 (1 # 2 ^ 1075) = 0.
Proof.
  split; [vm_compute; reflexivity|]. split; [vm_compute; reflexivity|].
  split; [vm_compute; reflexivity|]. split; [vm_compute; reflexivity|].
  split; [vm_compute; reflexivity|]. split; vm_compute; reflexivity.
Qed.

(** Without rounding the rolling mean is the mean of the numbers in the
    window. *)
Lemma exact_rolling_mean (window : nat) (s : list float) :
  s <> [] ->
  f_rolling_mean (Arith := exact_arith) window s =
  agg_mean (valid (window_at window s (length s - 1))).
Proof.
  intros Hne. unfold window_at. cbn [f_rolling_mean exact_arith].
  replace (S (length s - 1)) with (length s)
    by (destruct s; [congruence | simpl; lia]).
  rewrite firstn_all. reflexivity.
Qed.

(** Rounding decides the category.  With the machine's arithmetic the
    breakout size and the ATR of [rounding_case] are both 1.25 and the
    breakout is of small size; without rounding the ATR is below the
    size and the volume makes it a full breakout. *)
Example rounding_decides_the_category :
  verdict_category (fst (identify_breakout (AR := binary64) rounding_case 3))
    = Some PartialBreakoutSmallSize /\
  option_map breakout_size
    (verdict_details (fst (identify_breakout (AR := binary64) rounding_case 3)))
    = Some (Some (5 # 4)) /\
  option_map atr
    (verdict_details (fst (identify_breakout (AR := binary64) rounding_case 3)))
    = Some (Some (5 # 4)) /\
  true_range (AR := binary64) rounding_case =
    [None; Some (5629499534213119 # 4503599627370496); Some (5 # 4)] /\
  verdict_category (fst (identify_breakout (AR := exact_arith) rounding_case 3))
    = Some FullBreakout.
Proof.
  split; [vm_compute; reflexivity|]. split; [vm_compute; reflexivity|].
  split; [vm_compute; reflexivity|]. split; vm_compute; reflexivity.
Qed.

(** On the other samples the machine's arithmetic gives the category
    that the arithmetic without rounding gives, and on [two_candles] the
    same ATR, 12, where the mean of both candles' ranges would be 8.5. *)
Example samples_under_binary64 :
  verdict_category (fst (identify_breakout (AR := binary64) scenario_a 20))
    = Some FullBreakout /\
  verdict_category (fst (identify_breakout (AR := binary64) size_equals_atr 2))
    = Some PartialBreakoutSmallSize /\
  verdict_category (fst (identify_breakout (AR := binary64) volume_at_threshold 3))
    = Some PartialBreakoutLowVolume /\
  verdict_category (fst (identify_breakout (AR := binary64) volume_above_threshold 3))
    = Some FullBreakout /\
  verdict_category (fst (identify_breakout (AR := binary64) two_candles 2))
    = Some PartialBreakoutSmallSize /\
  option_map atr
    (verdict_details (fst (identify_breakout (AR := binary64) two_candles 2)))
    = Some (Some 12) /\
  claimed_atr (AR := binary64) two_candles = 17 # 2.
Proof.
  split; [vm_compute; reflexivity|]. split; [vm_compute; reflexivity|].
  split; [vm_compute; reflexivity|]. split; [vm_compute; reflexivity|].
  split; [vm_compute; reflexivity|]. split; vm_compute; reflexivity.
Qed.

Example all_attempts_fail_nothing_recorded :
  fst (scan_for_breakouts ["SBIN-EQ"%string] down) = Return [] /\
  sleeps (trace (snd (scan_for_breakouts ["SBIN-EQ"%string] down))) =
    [2; 4; 8; 8]%Z.
Proof. split; vm_compute; reflexivity. Qed.

(** Two symbols that each fail twice: the second starts from the delay
    the first one left. *)
Example delay_carries_over_to_next_symbol :
  sleeps (trace (snd (scan_for_breakouts ["SBIN-EQ"%string; "TCS-EQ"%string]
                        (flaky ++ flaky)))) = [2; 4; 4; 8; 16; 16]%Z.
Proof. vm_compute. reflexivity. Qed.

(** C5 as worded fails on [flaky]: the two backoff sleeps before the
    successful third fetch last 2 and 4 time units, not 1 and 2. *)
Lemma backoff_sleeps_are_two_then_four :
  trace (snd flaky_run) =
    [Fetch "SBIN-EQ"; Sleep 2; Fetch "SBIN-EQ"; Sleep 4;
     Fetch "SBIN-EQ"; Sleep 4] /\
  sleeps_before_last_fetch (trace (snd flaky_run)) = [2; 4]%Z /\
  sleeps_before_last_fetch (trace (snd flaky_run)) <> [1; 2]%Z /\
  map (fun d => (stock_symbol d, stock_breakout_type d))
      (breakout_stocks (snd flaky_run)) = [("SBIN-EQ"%string, FullBreakout)].
Proof.
  split; [vm_compute; reflexivity|].
  split; [vm_compute; reflexivity|].
  split; [vm_compute; discriminate|].
  vm_compute. reflexivity.
Qed.

(** ** The theorems at concrete inputs *)

Lemma breakout_tie_breaks_witness :
  exists (category : string) (a av : Q) (cv : Z),
    atr_at size_equals_atr = Return (Some a) /\
    avg_volume_at size_equals_atr 2 = Return (Some av) /\
    current_volume_at size_equals_atr = Return cv /\
    fst (identify_breakout size_equals_atr 2) =
      Return (true, category,
              Some (mkMetrics 20 (Some 10) (Some (f_sub 20 10)) (Some a) cv
                              (Some av))) /\
    (f_sub 20 10 <= a -> category = PartialBreakoutSmallSize) /\
    (f_sub 20 10 == a -> category = PartialBreakoutSmallSize) /\
    (a < f_sub 20 10 -> f_of_int cv <= f_mul (3 # 2) av ->
     category = PartialBreakoutLowVolume) /\
    (a < f_sub 20 10 -> f_of_int cv == f_mul (3 # 2) av ->
     category = PartialBreakoutLowVolume) /\
    (a < f_sub 20 10 -> f_mul (3 # 2) av < f_of_int cv ->
     category = FullBreakout).
Proof.
  apply (@breakout_tie_breaks compact_pandas exact_arith
           size_equals_atr size_equals_atr 2 20 10).
  - vm_compute. discriminate.
  - vm_compute. reflexivity.
  - vm_compute. reflexivity.
  - vm_compute. reflexivity.
  - vm_compute. reflexivity.
Defined.

Lemma insufficient_data_below_lookback_witness :
  (Z.of_nat (length two_candles) < 20)%Z /\
  identify_breakout two_candles 20 =
    (Return (false, InsufficientData, None), two_candles).
Proof.
  split; [simpl; lia|].
  apply (@insufficient_data_below_lookback compact_pandas exact_arith two_candles 20).
  simpl. lia.
Defined.

Lemma atr_is_mean_of_defined_true_ranges_witness :
  exists c rest,
    two_candles = c :: rest /\
    true_range two_candles = None :: map Some (true_ranges_from (close c) rest) /\
    defined_true_ranges two_candles = true_ranges_from (close c) rest /\
    atr_at two_candles = Return (Some 12) /\
    Some 12 = Some (f_rolling_mean 14 (true_range two_candles)) /\
    valid (window_at 14 (true_range two_candles) (length two_candles - 1)) =
      skipn (length (defined_true_ranges two_candles) - 14)
            (defined_true_ranges two_candles).
Proof.
  apply (@atr_is_mean_of_defined_true_ranges compact_pandas exact_arith
           two_candles two_candles 2 PartialBreakoutSmallSize
           (mkMetrics 19 (Some 10) (Some (19 - 10)) (Some 12) 100
                      (Some (agg_mean [inject_Z 100; inject_Z 100])))).
  - vm_compute. reflexivity.
  - vm_compute. reflexivity.
Defined.

Lemma verdict_invariant_under_shuffle_witness :
  fst (identify_breakout two_candles_text 2) =
  fst (identify_breakout (rev two_candles_text) 2).
Proof.
  apply (@verdict_invariant_under_shuffle compact_pandas exact_arith).
  - simpl. apply perm_swap.
  - simpl. constructor; [|constructor; [|constructor]]; simpl.
    + intros [H|[]]. discriminate.
    + intros [].
Defined.

Lemma caller_frame_only_gets_parsed_timestamps_witness :
  sort_values
    [mkCandle (TsStamp 20240101) 8 10 5 8 100;
     mkCandle (TsStamp 20240102) 19 20 9 19 100] =
    [mkCandle (TsStamp 20240101) 8 10 5 8 100;
     mkCandle (TsStamp 20240102) 19 20 9 19 100] /\
  identify_breakout (rev two_candles_text) 2 =
    (analyse [mkCandle (TsStamp 20240101) 8 10 5 8 100;
              mkCandle (TsStamp 20240102) 19 20 9 19 100] 2,
     [mkCandle (TsStamp 20240101) 8 10 5 8 100;
      mkCandle (TsStamp 20240102) 19 20 9 19 100]).
Proof.
  apply (proj2 (proj2 (proj2 (proj2
           (@caller_frame_only_gets_parsed_timestamps compact_pandas exact_arith))))).
  - reflexivity.
  - repeat constructor; unfold stamp_lt; simpl; lia.
  - simpl. lia.
Defined.

Lemma single_candle_gets_no_verdict_witness :
  fst (identify_breakout one_candle 1) = Raise IndexError.
Proof.
  apply (proj1 (proj2 (@single_candle_gets_no_verdict compact_pandas exact_arith))
           (row 1 105 95 100 1000) (row 1 105 95 100 1000)).
  reflexivity.
Defined.

Lemma backoff_doubles_then_sleeps_witness :
  scan_symbol "SBIN-EQ" (init flaky) =
    (Return tt,
     mkScan []
       (breakout_stocks (init flaky) ++
        [mkStock "SBIN-EQ" FullBreakout
           (verdict_details (fst (identify_breakout scenario_a 20)))])
       (delay (init flaky) * 4)
       (trace (init flaky) ++
        [Fetch "SBIN-EQ"; Sleep (delay (init flaky) * 2);
         Fetch "SBIN-EQ"; Sleep (delay (init flaky) * 4);
         Fetch "SBIN-EQ"; Sleep (delay (init flaky) * 4)])).
Proof.
  apply (proj2 (proj2 (proj2
           (@backoff_doubles_then_sleeps compact_pandas exact_arith scripted_broker)))
           "SBIN-EQ"%string "SBIN-EQ"%string (init flaky)
           FetchError FetchError
           [Raise FetchError; Return (Some scenario_a)]
           [Return (Some scenario_a)] [] scenario_a true).
  - reflexivity.
  - reflexivity.
  - reflexivity.
  - reflexivity.
  - discriminate.
  - vm_compute. reflexivity.
Defined.

Lemma fetch_failures_stay_inside_the_scan_witness :
  scan_symbol "SBIN-EQ" (init down) =
    (Return tt,
     mkScan [] (breakout_stocks (init down)) (delay (init down) * 8)
       (trace (init down) ++
        [Fetch "SBIN-EQ"; Sleep (delay (init down) * 2);
         Fetch "SBIN-EQ"; Sleep (delay (init down) * 4);
         Fetch "SBIN-EQ"; Sleep (delay (init down) * 8);
         Sleep (delay (init down) * 8)])).
Proof.
  apply (proj1 (@fetch_failures_stay_inside_the_scan compact_pandas exact_arith scripted_broker)
           "SBIN-EQ"%string "SBIN-EQ"%string (init down)
           FetchError FetchError FetchError
           [Raise FetchError; Raise FetchError] [Raise FetchError] []).
  - reflexivity.
  - reflexivity.
  - reflexivity.
  - reflexivity.
Defined.


(** * Further properties of the classifier *)

Lemma Qmax_cases (x y : Q) : Qmax x y = x \/ Qmax x y = y.
Proof.
  unfold Qmax, GenericMinMax.gmax. destruct (x ?= y); auto.
Qed.

Lemma fold_max_ge_init (l : list Q) (x : Q) : x <= fold_left Qmax l x.
Proof.
  revert x. induction l as [|y l IH]; intros x; simpl; [apply Qle_refl|].
  eapply Qle_trans; [apply Q.le_max_l | apply IH].
Qed.

Lemma fold_max_ge (l : list Q) (x y : Q) : In y l -> y <= fold_left Qmax l x.
Proof.
  revert x. induction l as [|z l IH]; intros x Hin; simpl; [contradiction|].
  destruct Hin as [->|Hin]; [|apply IH, Hin].
  eapply Qle_trans; [apply Q.le_max_r | apply fold_max_ge_init].
Qed.

Lemma fold_max_in (l : list Q) (x : Q) :
  fold_left Qmax l x = x \/ In (fold_left Qmax l x) l.
Proof.
  revert x. induction l as [|z l IH]; intros x; simpl; [left; reflexivity|].
  destruct (IH (Qmax x z)) as [E|Hin]; [|right; right; exact Hin].
  rewrite E. destruct (Qmax_cases x z) as [->| ->]; [left | right; left];
    reflexivity.
Qed.

(** The maximum of a window is below a bound exactly when every
    observation is. *)
Lemma agg_max_lt (l : list Q) (b : Q) :
  l <> [] -> (agg_max l < b <-> Forall (fun h => h < b) l).
Proof.
  destruct l as [|x l]; [congruence|]. intros _. simpl. split.
  - intros H. apply Forall_forall. intros h [<-|Hin].
    + eapply Qle_lt_trans; [apply fold_max_ge_init | exact H].
    + eapply Qle_lt_trans; [apply fold_max_ge, Hin | exact H].
  - intros H. rewrite Forall_forall in H.
    destruct (fold_max_in l x) as [->|Hin]; apply H; [left; reflexivity|].
    right. exact Hin.
Qed.

Section ClassifierMore.
Context {PD : Pandas} {AR : Arith}.

Lemma current_close_at_value (s : DataFrame) :
  s <> [] -> exists cc, current_close_at s = Return cc.
Proof.
  intros Hne. unfold current_close_at. change (-1)%Z with (- Z.of_nat 1)%Z.
  destruct (@iloc_neg_in _ (column close s) 1) as [x [_ Hx]].
  - unfold column. rewrite length_map. destruct s; [congruence | simpl; lia].
  - exists x. exact Hx.
Qed.

(** What [analyse] does, by the window and the number of rows. *)
Lemma analyse_cases (s : DataFrame) (lookback : Z) :
  ((lookback < 1)%Z /\ analyse s lookback = Raise ValueError) \/
  ((1 <= lookback)%Z /\ (length s < 2)%nat /\
   analyse s lookback = Raise IndexError) \/
  ((1 <= lookback)%Z /\ (2 <= length s)%nat /\
   exists cc ph,
     current_close_at s = Return cc /\
     previous_high_at s lookback = Return (Some ph) /\
     ph = agg_max (previous_highs s lookback) /\
     ((cc <= ph /\ analyse s lookback = Return (false, NoBreakout, None)) \/
      (ph < cc /\
       exists category a av cv,
         atr_at s = Return (Some a) /\
         avg_volume_at s lookback = Return (Some av) /\
         current_volume_at s = Return cv /\
         (category = FullBreakout \/ category = PartialBreakoutLowVolume \/
          category = PartialBreakoutSmallSize) /\
         analyse s lookback =
           Return (true, category,
                   Some (mkMetrics cc (Some ph) (Some (f_sub cc ph)) (Some a)
                                   cv (Some av)))))).
Proof.
  destruct (Z.lt_ge_cases lookback 1) as [Hlt|Hge].
  { left. split; [exact Hlt|]. unfold analyse, highest_high.
    rewrite rolling_raise by exact Hlt. reflexivity. }
  right. destruct (Nat.lt_ge_cases (length s) 2) as [Hn|Hn].
  { left. split; [exact Hge|]. split; [exact Hn|].
    unfold analyse, highest_high. rewrite rolling_return by exact Hge.
    cbn [bind]. set (hh := map _ _).
    assert (Hhh : length hh = length s).
    { unfold hh, fcolumn. rewrite length_map, length_seq, length_map.
      reflexivity. }
    destruct s as [|c [|d s]]; [| |simpl in Hn; lia].
    - reflexivity.
    - change (-2)%Z with (- Z.of_nat 2)%Z.
      rewrite (iloc_neg_out _ hh 2) by (rewrite Hhh; simpl; lia). reflexivity. }
  right. split; [exact Hge|]. split; [exact Hn|].
  assert (Hne : s <> []) by (intros E; rewrite E in Hn; simpl in Hn; lia).
  destruct (current_close_at_value s Hne) as [cc Hcc].
  pose proof (previous_high_at_value s lookback Hge Hn) as Hph.
  fold (previous_highs s lookback) in Hph.
  set (ph := agg_max (previous_highs s lookback)) in *.
  exists cc, ph. split; [exact Hcc|]. split; [exact Hph|]. split; [reflexivity|].
  rewrite (analyse_reads _ _ _ _ Hcc Hph). cbn [notna andb].
  destruct (Qlt_le_dec ph cc) as [Hgt|Hle].
  - right. split; [exact Hgt|].
    destruct s as [|c rest]; [congruence|].
    assert (Hrest : rest <> [])
      by (intros E; rewrite E in Hn; simpl in Hn; lia).
    pose proof (atr_at_value c rest Hrest) as Ha.
    destruct (avg_volume_at_value _ _ Hge Hne) as [av Hav].
    destruct (current_volume_at_value _ Hne) as [cv Hcv].
    set (a := f_rolling_mean 14 _) in Ha.
    assert (Eg : gt (Some cc) (Some ph) = true) by (apply gt_Some; exact Hgt).
    rewrite Eg, Ha, Hav, Hcv. cbn [bind lift2].
    destruct (gt (Some (f_sub cc ph)) (Some a));
      [destruct (gt (Some (f_of_int cv)) (Some (f_mul (3 # 2) av)))|];
      eexists; exists a, av, cv;
      (split; [reflexivity|]);
      (split; [reflexivity|]); (split; [reflexivity|]);
      (split; [|reflexivity]); tauto.
  - left. split; [exact Hle|].
    apply gt_Some_false in Hle. rewrite Hle. reflexivity.
Qed.

End ClassifierMore.

Section ClassifierExtras.
Context {PD : Pandas} {AR : Arith}.

Lemma identify_breakout_cases (df : DataFrame) (lookback : Z) :
  ((Z.of_nat (length df) < lookback)%Z /\
   identify_breakout df lookback = (Return (false, InsufficientData, None), df)) \/
  ((lookback <= Z.of_nat (length df))%Z /\ parse_rows df = None /\
   identify_breakout df lookback = (Raise ValueError, df)) \/
  ((lookback <= Z.of_nat (length df))%Z /\
   exists p, parse_rows df = Some p /\
             length (sort_values p) = length df /\
             identify_breakout df lookback = (analyse (sort_values p) lookback, p)).
Proof.
  rewrite identify_breakout_unfold.
  destruct (Z.ltb_spec (Z.of_nat (length df)) lookback) as [Hlt|Hge];
    [left; split; [exact Hlt | reflexivity] | right].
  destruct (parse_rows df) as [p|] eqn:Ep.
  - right. split; [exact Hge|]. exists p. split; [reflexivity|].
    split; [|reflexivity].
    rewrite sort_values_length. apply (parse_rows_length _ _ Ep).
  - left. split; [exact Hge|]. split; reflexivity.
Qed.

Lemma previous_highs_nonempty (s : DataFrame) (lookback : Z) :
  (1 <= lookback)%Z -> (2 <= length s)%nat -> previous_highs s lookback <> [].
Proof.
  intros Hw Hn E. apply (f_equal (@length Q)) in E.
  unfold previous_highs, column in E.
  rewrite length_skipn, length_firstn, length_map in E. cbn [length] in E. lia.
Qed.

(** X1 -- A returned verdict has one of five shapes, and its flag, its
    category and its details go together: [is_breakout] is true exactly
    when the category is one of the three breakout categories and the
    details are filled in; otherwise the details are empty and the
    category is "Insufficient Data" (series shorter than [lookback]) or
    "No Breakout" (series of at least [lookback] and at least 2
    candles). *)
Theorem verdict_flag_category_details (df : DataFrame) (lookback : Z)
  (is_breakout : bool) (category : string) (details : option metrics) :
  fst (identify_breakout df lookback) = Return (is_breakout, category, details) ->
  (is_breakout = false /\ details = None /\
   ((category = InsufficientData /\ (Z.of_nat (length df) < lookback)%Z) \/
    (category = NoBreakout /\ (lookback <= Z.of_nat (length df))%Z /\
     (2 <= length df)%nat))) \/
  (is_breakout = true /\ (exists m, details = Some m) /\
   (category = FullBreakout \/ category = PartialBreakoutLowVolume \/
    category = PartialBreakoutSmallSize) /\
   (lookback <= Z.of_nat (length df))%Z /\ (2 <= length df)%nat).
Proof.
  intros H.
  destruct (identify_breakout_cases df lookback)
    as [[Hlt E] | [[Hge [_ E]] | [Hge [p [_ [Hlen E]]]]]];
    rewrite E in H; cbn [fst] in H.
  - injection H as <- <- <-. left. repeat split. left. split; [reflexivity | exact Hlt].
  - discriminate.
  - destruct (analyse_cases (sort_values p) lookback)
      as [[_ Ea] | [[_ [_ Ea]] | [_ [Hn [cc [ph [_ [_ [_ Hv]]]]]]]]];
      try (rewrite Ea in H; discriminate).
    rewrite Hlen in Hn.
    destruct Hv as [[_ Ea] | [_ [cat [a [av [cv [_ [_ [_ [Hcat Ea]]]]]]]]]];
      rewrite Ea in H; injection H as <- <- <-.
    + left. repeat split. right. repeat split; assumption.
    + right. repeat split; try assumption. eexists; reflexivity.
Qed.

(** X2 -- The details of a breakout verdict hang together: the close and
    the volume are those of the latest candle, [previous_high] is the
    highest high of the [lookback] candles before it and lies strictly
    below the close, [breakout_size] is the binary64 difference of the
    two as the program computes it, [avg_volume] is the rolling volume
    mean at the last position, and [atr] is the rolling mean of the
    true ranges at the last position, a number (never NaN). *)
Theorem breakout_details_are_consistent (df s : DataFrame) (lookback : Z)
  (category : string) (m : metrics) :
  sorted_frame df = Some s ->
  fst (identify_breakout df lookback) = Return (true, category, Some m) ->
  current_close_at s = Return (current_close m) /\
  current_volume_at s = Return (current_volume m) /\
  previous_high m = Some (agg_max (previous_highs s lookback)) /\
  agg_max (previous_highs s lookback) < current_close m /\
  breakout_size m =
    Some (f_sub (current_close m) (agg_max (previous_highs s lookback))) /\
  avg_volume_at s lookback = Return (avg_volume m) /\
  atr_at s = Return (atr m) /\
  exists a, atr m = Some a.
Proof.
  intros Hs H. destruct (sorted_frame_unfold _ _ Hs) as [p [Hp ->]].
  destruct (identify_breakout_cases df lookback)
    as [[_ E] | [[_ [_ E]] | [_ [p' [Hp' [_ E]]]]]];
    rewrite E in H; cbn [fst] in H; try discriminate.
  rewrite Hp in Hp'. injection Hp' as <-.
  destruct (analyse_cases (sort_values p) lookback)
    as [[_ Ea] | [[_ [_ Ea]] | [_ [_ [cc [ph [Hcc [_ [Hph Hv]]]]]]]]];
    try (rewrite Ea in H; discriminate).
  destruct Hv as [[_ Ea] | [Hgt [cat [a [av [cv [Ha [Hav [Hcv [_ Ea]]]]]]]]]];
    rewrite Ea in H; [discriminate|].
  injection H as _ <-. cbn. subst ph.
  repeat split; try assumption. exists a. reflexivity.
Qed.

(** X3 -- On a series of at least [lookback] and at least 2 candles the
    verdict is a breakout exactly when the latest close is strictly above
    the high of every one of the [lookback] candles before it (of all
    earlier candles when there are fewer); in every other case it is
    "No Breakout".  The latest candle's own high plays no part. *)
Theorem breakout_iff_close_above_previous_highs (df s : DataFrame)
  (lookback : Z) (cc : Q) :
  (1 <= lookback)%Z -> (lookback <= Z.of_nat (length df))%Z ->
  (2 <= length df)%nat ->
  sorted_frame df = Some s ->
  current_close_at s = Return cc ->
  ((exists category m,
      fst (identify_breakout df lookback) = Return (true, category, Some m))
   <-> Forall (fun h => h < cc) (previous_highs s lookback)) /\
  (fst (identify_breakout df lookback) = Return (false, NoBreakout, None)
   <-> Exists (fun h => cc <= h) (previous_highs s lookback)).
Proof.
  intros Hw Hlen Hn Hs Hcc.
  destruct (sorted_frame_unfold _ _ Hs) as [p [Hp ->]].
  destruct (identify_breakout_cases df lookback)
    as [[Hlt _] | [[_ [Hp' _]] | [_ [p' [Hp' [Hl E]]]]]];
    [lia | congruence |].
  rewrite Hp in Hp'. injection Hp' as <-. rewrite E. cbn [fst].
  assert (Hne : previous_highs (sort_values p) lookback <> [])
    by (apply previous_highs_nonempty; [exact Hw | rewrite Hl; exact Hn]).
  pose proof (agg_max_lt _ cc Hne) as Hmax.
  destruct (analyse_cases (sort_values p) lookback)
    as [[Hlt _] | [[_ [Hn' _]] | [_ [_ [cc' [ph [Hcc' [_ [Hph Hv]]]]]]]]];
    [lia | rewrite Hl in Hn'; lia |].
  rewrite Hcc in Hcc'. injection Hcc' as <-. subst ph.
  destruct Hv as [[Hle Ea] | [Hgt [cat [a [av [cv [_ [_ [_ [_ Ea]]]]]]]]]];
    rewrite Ea.
  - assert (Hex : Exists (fun h => cc <= h) (previous_highs (sort_values p) lookback)).
    { apply Exists_exists.
      destruct (previous_highs (sort_values p) lookback) as [|x l] eqn:El;
        [congruence|].
      simpl in Hle. destruct (fold_max_in l x) as [Ex|Hin].
      - exists x. split; [left; reflexivity | rewrite <- Ex; exact Hle].
      - eexists. split; [right; exact Hin | exact Hle]. }
    split; split; intros H; try reflexivity; try exact Hex.
    + destruct H as [cat [m H]]. discriminate.
    + apply Hmax in H. exfalso. apply (Qlt_not_le _ _ H Hle).
  - split; split; intros H.
    + apply Hmax. exact Hgt.
    + eexists. eexists. reflexivity.
    + discriminate.
    + exfalso. apply Exists_exists in H. destruct H as [h [Hin Hh]].
      apply Hmax in Hgt. rewrite Forall_forall in Hgt.
      apply (Qlt_not_le _ _ (Hgt h Hin) Hh).
Qed.

(** X4 -- The call raises nothing but ValueError and IndexError.
    ValueError comes out exactly when the series is not shorter than
    [lookback] and a timestamp does not parse ([pd.to_datetime]'s
    error is a ValueError), or [lookback] is 0 or negative and the
    timestamps parse ([rolling] refuses the window); IndexError exactly
    when [lookback] is 1, the series has one candle and its timestamp
    parses.  When a timestamp does not parse the caller's frame is left
    as it was; in every other failure its timestamps have already been
    overwritten with the parsed ones. *)
Theorem identify_breakout_failures (df : DataFrame) (lookback : Z) :
  (forall e, fst (identify_breakout df lookback) = Raise e ->
     e = ValueError \/ e = IndexError) /\
  (fst (identify_breakout df lookback) = Raise ValueError <->
     ((lookback <= Z.of_nat (length df))%Z /\ parse_rows df = None) \/
     ((lookback <= 0)%Z /\ parse_rows df <> None)) /\
  (fst (identify_breakout df lookback) = Raise IndexError <->
     lookback = 1%Z /\ length df = 1%nat /\ parse_rows df <> None) /\
  (forall e, fst (identify_breakout df lookback) = Raise e ->
     (parse_rows df = None -> snd (identify_breakout df lookback) = df) /\
     (forall p, parse_rows df = Some p ->
                snd (identify_breakout df lookback) = p)).
Proof.
  destruct (identify_breakout_cases df lookback)
    as [[Hlt E] | [[Hge [Hp E]] | [Hge [p [Hp [Hl E]]]]]]; rewrite E; cbn [fst snd].
  - split; [intros e H; discriminate|].
    split; [split; [discriminate | intros [[H _]|[H _]]; lia]|].
    split; [split; [discriminate | intros [-> [H _]]; lia]|].
    intros e H; discriminate.
  - split; [intros e H; injection H as <-; auto|].
    split; [split; [intros _; left; split; assumption | reflexivity]|].
    split; [split; [discriminate | intros [_ [_ H]]; congruence]|].
    intros e _. split; [reflexivity | intros p H; congruence].
  - assert (Hsome : parse_rows df <> None) by congruence.
    assert (Hframe : (parse_rows df = None -> p = df) /\
                     (forall p0, parse_rows df = Some p0 -> p = p0)).
    { split; [congruence | intros p0 H; congruence]. }
    destruct (analyse_cases (sort_values p) lookback)
      as [[Hlt Ea] | [[Hw [Hn Ea]] | [Hw [Hn [cc [ph [_ [_ [_ Hv]]]]]]]]].
    + rewrite Ea.
      split; [intros e H; injection H as <-; auto|].
      split; [split; [intros _; right; split; [lia | exact Hsome]
                     | reflexivity]|].
      split; [split; [discriminate | intros [-> _]; lia]|].
      intros e _. exact Hframe.
    + rewrite Ea. rewrite Hl in Hn.
      split; [intros e H; injection H as <-; auto|].
      split; [split; [discriminate
                     | intros [[_ H]|[H _]]; [congruence | lia]]|].
      split; [split; [intros _; repeat split; [lia | lia | exact Hsome]
                     | reflexivity]|].
      intros e _. exact Hframe.
    + rewrite Hl in Hn.
      assert (Hret : exists v, analyse (sort_values p) lookback = Return v).
      { destruct Hv as [[_ Ea] | [_ [cat [a [av [cv [_ [_ [_ [_ Ea]]]]]]]]]];
          rewrite Ea; eexists; reflexivity. }
      destruct Hret as [v Ea]. rewrite Ea.
      split; [intros e H; discriminate|].
      split; [split; [discriminate
                     | intros [[_ H]|[H _]]; [congruence | lia]]|].
      split; [split; [discriminate | intros [_ [H _]]; lia]|].
      intros e H; discriminate.
Qed.

(** With the scan's lookback of 20 only [pd.to_datetime]'s error can come
    out. *)
Lemma identify_breakout_20_raises (df : DataFrame) (e : exn) :
  fst (identify_breakout df 20) = Raise e ->
  e = ValueError /\ (20 <= length df)%nat /\ parse_rows df = None.
Proof.
  intros H.
  destruct (identify_breakout_cases df 20)
    as [[Hlt E] | [[Hge [Hp E]] | [Hge [p [Hp [Hl E]]]]]];
    rewrite E in H; cbn [fst] in H; try discriminate.
  - injection H as <-. repeat split; [lia | exact Hp].
  - destruct (analyse_cases (sort_values p) 20)
      as [[Hlt _] | [[_ [Hn _]] | [_ [_ [cc [ph [_ [_ [_ Hv]]]]]]]]];
      [lia | rewrite Hl in Hn; lia |].
    destruct Hv as [[_ Ea] | [_ [cat [a [av [cv [_ [_ [_ [_ Ea]]]]]]]]]];
      rewrite Ea in H; discriminate.
Qed.

End ClassifierExtras.

(** * Further properties of the scan *)

Lemma subsequence_length (A : Type) (l1 l2 : list A) :
  subsequence l1 l2 -> (length l1 <= length l2)%nat.
Proof. induction 1; simpl; lia. Qed.

Lemma subsequence_app_one (A : Type) (x : A) (l1 l2 : list A) (pre : list A) :
  subsequence l1 l2 -> (pre = [] \/ pre = [x]) ->
  subsequence (pre ++ l1) (x :: l2).
Proof.
  intros H [-> | ->]; simpl; [apply sub_skip | apply sub_keep]; exact H.
Qed.

Section ScanExtras.
Context {PD : Pandas} {AR : Arith} {BR : Broker}.

(** What a symbol may add to the result: nothing, or one record under
    its own name. *)
Definition adds_at_most_one (symbol : string) (s s' : ScanState) : Prop :=
  exists pre, (pre = [] \/ exists d, pre = [d] /\ stock_symbol d = symbol) /\
              breakout_stocks s' = breakout_stocks s ++ pre.

Lemma retry_adds_at_most_one (n : nat) (symbol token : string) (s : ScanState) :
  exists s', retry n symbol token s = (Return tt, s') /\
             adds_at_most_one symbol s s'.
Proof.
  revert s. induction n as [|n IH]; intros s; simpl.
  - exists s. split; [reflexivity|]. exists []. rewrite app_nil_r. auto.
  - unfold bindM. rewrite attempt_run.
    assert (Hfail : forall w,
      exists s', retry n symbol token (failed token w s) = (Return tt, s') /\
                 adds_at_most_one symbol s s').
    { intros w. destruct (IH (failed token w s)) as (s' & E & pre & Hpre & Hb).
      exists s'. split; [exact E|]. exists pre. split; [exact Hpre | exact Hb]. }
    assert (Hnone : forall w,
      exists s', ret tt (fetched token w [] s) = (Return tt, s') /\
                 adds_at_most_one symbol s s').
    { intros w. eexists. split; [reflexivity|]. exists []. auto. }
    destruct (get_historical_data token (world s)) as [[[[|c df]|]|e] w]; auto.
    destruct (fst (identify_breakout (c :: df) 20)) as [[[[|] cat] det]|e]; auto.
    eexists. split; [reflexivity|].
    exists [mkStock symbol cat det]. split; [|reflexivity].
    right. eexists. split; reflexivity.
Qed.

Lemma scan_symbol_adds_at_most_one (symbol : string) (s : ScanState) :
  exists s', scan_symbol symbol s = (Return tt, s') /\
             adds_at_most_one symbol s s'.
Proof.
  unfold scan_symbol, bindM.
  destruct (get_symbol_token symbol) as [token|].
  - destruct (retry_adds_at_most_one 3 symbol token s) as (s1 & E & pre & Hpre & Hb).
    rewrite E. eexists. split; [reflexivity|]. exists pre. split; assumption.
  - eexists. split; [reflexivity|]. exists []. rewrite app_nil_r. auto.
Qed.

Lemma scan_loop_subsequence (symbols : list string) (s : ScanState) :
  exists s' added,
    scan_loop symbols s = (Return tt, s') /\
    breakout_stocks s' = breakout_stocks s ++ added /\
    subsequence (map stock_symbol added) symbols.
Proof.
  revert s. induction symbols as [|symbol rest IH]; intros s; simpl.
  - exists s, []. rewrite app_nil_r. repeat split. constructor.
  - unfold bindM.
    destruct (scan_symbol_adds_at_most_one symbol s) as (s1 & E & pre & Hpre & Hb).
    rewrite E. destruct (IH s1) as (s2 & added & E2 & Hb2 & Hsub).
    exists s2, (pre ++ added). split; [exact E2|].
    split; [rewrite Hb2, Hb, app_assoc; reflexivity|].
    rewrite map_app. apply subsequence_app_one; [exact Hsub|].
    destruct Hpre as [-> | [d [-> <-]]]; [left | right]; reflexivity.
Qed.

(** X5 -- The records come out in the order of the symbols scanned, at
    most one for each symbol of the list: the symbols of the result are
    the list of symbols with some left out. *)
Theorem result_follows_symbol_order (symbols : list string) (w : World)
  (stocks : list stock) (s : ScanState) :
  scan_for_breakouts symbols w = (Return stocks, s) ->
  subsequence (map stock_symbol stocks) symbols /\
  (length stocks <= length symbols)%nat.
Proof.
  unfold scan_for_breakouts.
  destruct (scan_loop_subsequence symbols (init w)) as (s' & added & E & Hb & Hsub).
  rewrite E. intros H. injection H as <- <-. rewrite Hb. simpl.
  split; [exact Hsub|].
  apply subsequence_length in Hsub. rewrite length_map in Hsub. exact Hsub.
Qed.

Lemma scan_loop_unknown (symbols : list string) (s : ScanState) :
  (forall x, In x symbols -> get_symbol_token x = None) ->
  scan_loop symbols s =
    (Return tt,
     mkScan (world s) (breakout_stocks s) (delay s)
            (trace s ++ repeat (Sleep (delay s)) (length symbols))).
Proof.
  revert s. induction symbols as [|symbol rest IH]; intros s Hall; simpl.
  - rewrite app_nil_r. destruct s; reflexivity.
  - unfold bindM, scan_symbol, bindM.
    rewrite (Hall symbol (or_introl eq_refl)). cbn.
    rewrite IH by (intros x Hx; apply Hall; right; exact Hx).
    cbn. rewrite <- app_assoc. reflexivity.
Qed.

(** X6 -- Symbols that have no token cost no request: when none of the
    symbols resolves, the scan returns an empty result without a single
    fetch, the connector untouched, after one pause of the initial delay
    of 1 for each symbol. *)
Theorem unknown_symbols_are_passed_over (symbols : list string) (w : World) :
  (forall x, In x symbols -> get_symbol_token x = None) ->
  scan_for_breakouts symbols w =
    (Return [], mkScan w [] 1 (repeat (Sleep 1) (length symbols))).
Proof.
  intros Hall. unfold scan_for_breakouts.
  rewrite (scan_loop_unknown symbols (init w) Hall). reflexivity.
Qed.

(** An answer that makes an attempt end in the handler: the connector
    raised, or it returned rows that the classifier could not read. *)
Definition fails_attempt (r : result (option DataFrame)) : Prop :=
  match r with
  | Raise _ => True
  | Return (Some df) => df <> [] /\ exists e, fst (identify_breakout df 20) = Raise e
  | Return None => False
  end.

Lemma attempt_fails (symbol token : string) (s : ScanState)
  (r : result (option DataFrame)) (w : World) :
  get_historical_data token (world s) = (r, w) -> fails_attempt r ->
  attempt symbol token s = (Return false, failed token w s).
Proof.
  intros H Hr. rewrite attempt_run, H.
  destruct r as [[[|c df]|]|e]; simpl in Hr; try reflexivity.
  - destruct Hr as [Hne _]. congruence.
  - destruct Hr as [_ [e He]]. rewrite He. reflexivity.
  - contradiction.
Qed.

(** X7 -- Rows the classifier cannot read count as a failed attempt just
    as an exception of the connector does: the delay is doubled, slept,
    and the data are fetched again.  After three such attempts, of either
    kind, the symbol is left without a record.  Only a frame of 20 rows
    or more with a timestamp that does not parse is unreadable in this
    sense. *)
Theorem unreadable_data_is_fetched_again :
  (forall symbol token s r1 r2 r3 w1 w2 w3,
     get_symbol_token symbol = Some token ->
     get_historical_data token (world s) = (r1, w1) -> fails_attempt r1 ->
     get_historical_data token w1 = (r2, w2) -> fails_attempt r2 ->
     get_historical_data token w2 = (r3, w3) -> fails_attempt r3 ->
     scan_symbol symbol s =
       (Return tt,
        mkScan w3 (breakout_stocks s) (delay s * 8)
          (trace s ++ [Fetch token; Sleep (delay s * 2);
                       Fetch token; Sleep (delay s * 4);
                       Fetch token; Sleep (delay s * 8);
                       Sleep (delay s * 8)]))) /\
  (forall df, fails_attempt (Return (Some df)) ->
     (20 <= length df)%nat /\ parse_rows df = None).
Proof.
  split.
  - intros symbol token s r1 r2 r3 w1 w2 w3 Htok H1 F1 H2 F2 H3 F3.
    rewrite (scan_symbol_found _ _ _ Htok).
    cbn [retry]. unfold bindM.
    rewrite (attempt_fails _ _ _ _ _ H1 F1).
    rewrite (attempt_fails symbol token (failed token w1 s) r2 w2 H2 F2).
    rewrite (attempt_fails symbol token
               (failed token w2 (failed token w1 s)) r3 w3 H3 F3).
    unfold ret, sleep_delay, failed. cbn. rewrite <- ?app_assoc. cbn.
    replace (delay s * 2 * 2 * 2)%Z with (delay s * 8)%Z by lia.
    replace (delay s * 2 * 2)%Z with (delay s * 4)%Z by lia. reflexivity.
  - intros df [_ [e He]].
    destruct (identify_breakout_20_raises df e He) as [_ [Hn Hp]].
    split; assumption.
Qed.

End ScanExtras.

Lemma sleeps_app (a b : list event) : sleeps (a ++ b) = sleeps a ++ sleeps b.
Proof.
  induction a as [|[tok|d] a IH]; simpl; [reflexivity | exact IH | now rewrite IH].
Qed.

Section AngelOneExtras.
Context {PD : Pandas} {AR : Arith} (API : SmartApi).

Hypothesis rows_parse :
  forall tok n rows n',
    getCandleData tok n = (Return (Data rows), n') -> parse_rows rows <> None.

Lemma angel_attempt (symbol token : string) (s : @ScanState (angel_one API)) :
  exists s', attempt (BR := angel_one API) symbol token s = (Return true, s') /\
             delay s' = delay s /\ trace s' = trace s ++ [Fetch token].
Proof.
  rewrite attempt_run. cbn [get_historical_data angel_one].
  unfold angel_get_historical_data.
  destruct (getCandleData token (world s)) as [[[|[|c rows]]|e] n'] eqn:E;
    try (eexists; split; [reflexivity | split; reflexivity]).
  destruct (fst (identify_breakout (c :: rows) 20)) as [[[[|] cat] det]|e] eqn:Ev;
    try (eexists; split; [reflexivity | split; reflexivity]).
  destruct (identify_breakout_20_raises _ _ Ev) as [_ [_ Hp]].
  exfalso. exact (rows_parse _ _ _ _ E Hp).
Qed.

Lemma angel_scan_symbol (symbol : string) (s : @ScanState (angel_one API)) :
  exists s' evs,
    scan_symbol (BR := angel_one API) symbol s = (Return tt, s') /\
    delay s' = delay s /\ trace s' = trace s ++ evs /\
    sleeps evs = [delay s] /\ (fetches evs <= 1)%nat.
Proof.
  unfold scan_symbol, bindM.
  destruct (get_symbol_token (Broker := angel_one API) symbol) as [token|].
  - cbn [retry]. unfold bindM.
    destruct (angel_attempt symbol token s) as (s1 & E & Hd & Ht).
    rewrite E. unfold ret, sleep_delay.
    eexists. exists [Fetch token; Sleep (delay s)].
    split; [reflexivity|]. cbn. rewrite Hd, Ht, <- app_assoc.
    repeat split. lia.
  - unfold ret, sleep_delay. eexists. exists [Sleep (delay s)].
    split; [reflexivity|]. cbn. repeat split. lia.
Qed.

Lemma angel_scan_loop (symbols : list string) (s : @ScanState (angel_one API)) :
  exists s' evs,
    scan_loop (BR := angel_one API) symbols s = (Return tt, s') /\
    delay s' = delay s /\ trace s' = trace s ++ evs /\
    sleeps evs = repeat (delay s) (length symbols) /\
    (fetches evs <= length symbols)%nat.
Proof.
  revert s. induction symbols as [|symbol rest IH]; intros s; simpl.
  - exists s, []. rewrite app_nil_r. repeat split. cbn. lia.
  - unfold bindM.
    destruct (angel_scan_symbol symbol s) as (s1 & e1 & E1 & Hd1 & Ht1 & Hs1 & Hf1).
    rewrite E1.
    destruct (IH s1) as (s2 & e2 & E2 & Hd2 & Ht2 & Hs2 & Hf2).
    exists s2, (e1 ++ e2). split; [exact E2|].
    split; [congruence|].
    split; [rewrite Ht2, Ht1, app_assoc; reflexivity|].
    split; [rewrite sleeps_app, Hs1, Hs2, Hd1; reflexivity|].
    rewrite fetches_app. lia.
Qed.

(** X9 -- With the repository's connector, and data whose timestamps
    parse, the retry loop never runs a second attempt: a scan makes at
    most one request for each symbol, the delay stays at 1 throughout,
    and the only sleeps are the pauses of 1 after each symbol. *)
Theorem angel_one_scan_never_backs_off (symbols : list string) (n : Session) :
  exists stocks s',
    scan_for_breakouts (BR := angel_one API) symbols n = (Return stocks, s') /\
    delay s' = 1%Z /\
    sleeps (trace s') = repeat 1%Z (length symbols) /\
    (fetches (trace s') <= length symbols)%nat.
Proof.
  unfold scan_for_breakouts.
  destruct (angel_scan_loop symbols (init (BR := angel_one API) n))
    as (s' & evs & E & Hd & Ht & Hs & Hf).
  rewrite E. eexists. exists s'. split; [reflexivity|].
  split; [exact Hd|]. rewrite Ht. cbn. split; [exact Hs | exact Hf].
Qed.

End AngelOneExtras.

(** * The instrument master *)

Lemma lookup_frame_list (rows : list instrument) (symbol : string) :
  lookup_frame rows symbol = lookup_list rows symbol.
Proof.
  unfold lookup_frame, lookup_list.
  induction rows as [|i rows IH]; simpl; [reflexivity|].
  destruct (String.eqb (i_symbol i) symbol); [reflexivity | exact IH].
Qed.

(** X10 -- Looking a symbol up gives the token of the first instrument
    of the master that carries the symbol, whichever form the master was
    loaded in (DataFrame or list of dicts), and None exactly when no
    instrument carries it.  Nothing but the symbol is compared: not the
    exchange segment, not the instrument type. *)
Theorem lookup_gives_first_match (rows : list instrument) (symbol : string) :
  lookup_frame rows symbol = lookup_list rows symbol /\
  (lookup_list rows symbol = None <-> ~ In symbol (map i_symbol rows)) /\
  (forall t, lookup_list rows symbol = Some t <->
     exists before i after,
       rows = before ++ i :: after /\ i_symbol i = symbol /\ i_token i = t /\
       ~ In symbol (map i_symbol before)).
Proof.
  split; [apply lookup_frame_list|]. unfold lookup_list.
  induction rows as [|i rows [IHn IHs]]; simpl.
  - split; [tauto|]. intros t. split; [discriminate|].
    intros (before & j & after & E & _). destruct before; discriminate.
  - destruct (String.eqb_spec (i_symbol i) symbol) as [Heq|Hne].
    + split; [split; [discriminate | intros H; exfalso; apply H; left; exact Heq]|].
      intros t. split.
      * intros H. injection H as <-. exists [], i, rows. repeat split; auto.
      * intros (before & j & after & E & Hs & Ht & Hnot).
        destruct before as [|b before]; simpl in E; injection E as <- _.
        -- rewrite Ht. reflexivity.
        -- exfalso. apply Hnot. left. exact Heq.
    + split.
      * rewrite IHn. split; [intros H [E|Hin]; [congruence | exact (H Hin)]
                            | intros H Hin; apply H; right; exact Hin].
      * intros t. rewrite IHs. split.
        -- intros (before & j & after & E & Hs & Ht & Hnot).
           exists (i :: before), j, after. rewrite E. repeat split; auto.
           intros [E'|Hin]; [congruence | exact (Hnot Hin)].
        -- intros (before & j & after & E & Hs & Ht & Hnot).
           destruct before as [|b before]; simpl in E; injection E as <- E.
           ++ congruence.
           ++ exists before, j, after. repeat split; auto.
              intros Hin. apply Hnot. right. exact Hin.
Qed.

(** X11 -- A download that succeeds is kept for the day.  When the
    cache is missing or older than today and the server answers 200,
    [fetch_instruments] makes one request, holds the downloaded list and
    writes both cache files stamped today.  A second call on the same
    day makes no request and replaces the list by the frame that
    [pd.read_csv] makes of the CSV file just written, which need not
    hold the cells of the list: lookups are answered from the list
    before the second call and from the frame read back after it.  On a
    later day the master is downloaded again. *)
Theorem download_is_cached_for_the_day {CSV : CsvFile} (today : Z)
  (r r' : response_http) (m : IM) :
  _should_update_file today m = true ->
  status_code r = 200%Z ->
  fetch_instruments today r m =
    mkIM (Some (AsList (json_body r))) (Some (read_back (json_body r), today))
         (Some (json_body r, today)) (S (im_requests m)) /\
  fetch_instruments today r' (fetch_instruments today r m) =
    mkIM (Some (AsFrame (read_back (json_body r))))
         (Some (read_back (json_body r), today))
         (Some (json_body r, today)) (S (im_requests m)) /\
  (forall symbol,
     fst (get_symbol_token_im symbol (fetch_instruments today r m)) =
       lookup_list (json_body r) symbol /\
     fst (get_symbol_token_im symbol
            (fetch_instruments today r' (fetch_instruments today r m))) =
       lookup_frame (read_back (json_body r)) symbol) /\
  (forall later, (today < later)%Z ->
     im_requests (fetch_instruments later r' (fetch_instruments today r m)) =
       S (S (im_requests m))).
Proof.
  intros Hup Hok.
  assert (E1 : fetch_instruments today r m =
               mkIM (Some (AsList (json_body r)))
                    (Some (read_back (json_body r), today))
                    (Some (json_body r, today)) (S (im_requests m))).
  { unfold fetch_instruments. rewrite Hup. unfold _download_instruments.
    rewrite Hok. reflexivity. }
  rewrite E1. split; [reflexivity|].
  assert (Hfresh : (today <? today)%Z = false) by (apply Z.ltb_irrefl).
  split; [|split].
  - unfold fetch_instruments, _should_update_file. cbn. rewrite Hfresh.
    reflexivity.
  - intros symbol. split; [reflexivity|].
    unfold fetch_instruments, _should_update_file. cbn.
    rewrite Hfresh. reflexivity.
  - intros later Hl. unfold fetch_instruments, _should_update_file. cbn.
    apply Z.ltb_lt in Hl. rewrite Hl. unfold _download_instruments. cbn.
    destruct (status_code r' =? 200)%Z; reflexivity.
Qed.

(** X12 -- A download that is refused (any status but 200) changes
    nothing but the count of requests: no file is written and nothing is
    loaded.  The first lookup afterwards then loads what cache there is,
    however old: the CSV file if it exists, else the JSON file; with no
    file at all every symbol is unknown. *)
Theorem refused_download_falls_back_on_cache {CSV : CsvFile} (today : Z)
  (r : response_http) (m : IM) :
  _should_update_file today m = true ->
  status_code r <> 200%Z ->
  im_instruments m = None ->
  fetch_instruments today r m =
    mkIM None (im_csv m) (im_json m) (S (im_requests m)) /\
  forall symbol,
    fst (get_symbol_token_im symbol (fetch_instruments today r m)) =
    match im_csv m, im_json m with
    | Some (rows, _), _ => lookup_frame rows symbol
    | None, Some (rows, _) => lookup_list rows symbol
    | None, None => None
    end.
Proof.
  intros Hup Hbad Hnone.
  assert (E : fetch_instruments today r m =
              mkIM None (im_csv m) (im_json m) (S (im_requests m))).
  { unfold fetch_instruments. rewrite Hup. unfold _download_instruments.
    apply Z.eqb_neq in Hbad. rewrite Hbad, Hnone. reflexivity. }
  rewrite E. split; [reflexivity|]. intros symbol.
  unfold get_symbol_token_im, _load_instruments. cbn.
  destruct (im_csv m) as [[rows mt]|]; [reflexivity|].
  destruct (im_json m) as [[rows mt]|]; reflexivity.
Qed.

(** * prepare_stocks_to_scan *)

Lemma existsb_eqb_In (a : string) (l : list string) :
  existsb (String.eqb a) l = true <-> In a l.
Proof.
  rewrite existsb_exists. split.
  - intros [x [Hin E]]. apply String.eqb_eq in E. now subst.
  - intros Hin. exists a. split; [exact Hin | apply String.eqb_refl].
Qed.

Lemma unique_from_In (seen names : list string) (x : string) :
  In x (unique_from seen names) <-> In x names /\ ~ In x seen.
Proof.
  revert seen. induction names as [|y names IH]; intros seen; simpl; [tauto|].
  destruct (existsb (String.eqb y) seen) eqn:E.
  - apply existsb_eqb_In in E. rewrite IH. split.
    + intros [H1 H2]. split; [right; exact H1 | exact H2].
    + intros [[->|H1] H2]; [contradiction | split; assumption].
  - assert (Hy : ~ In y seen).
    { intros H. apply existsb_eqb_In in H. congruence. }
    simpl. rewrite IH. simpl. split.
    + intros [<-|[H1 H2]]; [split; [left; reflexivity | exact Hy]|].
      split; [right; exact H1 | intros H; apply H2; right; exact H].
    + intros [[->|H1] H2]; [left; reflexivity|].
      destruct (String.eqb_spec y x) as [->|Hne]; [left; reflexivity|].
      right. split; [exact H1 | intros [H|H]; [congruence | exact (H2 H)]].
Qed.

Lemma unique_In (names : list string) (x : string) :
  In x (unique names) <-> In x names.
Proof. unfold unique. rewrite unique_from_In. simpl. tauto. Qed.

Lemma subsequence_map_filter (A B : Type) (g : A -> B) (keep : A -> bool)
  (l : list A) :
  subsequence (map g (filter keep l)) (map g l).
Proof.
  induction l as [|a l IH]; simpl; [constructor|].
  destruct (keep a); simpl; [apply sub_keep | apply sub_skip]; exact IH.
Qed.

Section PrepareFacts.
Variable parse_expiry : string -> option Z.
Variable today : Z.

(** A stock future of the master that has not expired at the moment of
    the run, and its expiry. *)
Definition current_future (df : list instrument) (f : instrument) (e : Z) : Prop :=
  In f df /\ is_future f = true /\
  to_expiry_date parse_expiry (i_expiry f) = Return (Some e) /\
  (today <= e)%Z.

(** One that is among the first to expire. *)
Definition nearest_future (df : list instrument) (f : instrument) : Prop :=
  exists e, current_future df f e /\
            forall g e', current_future df g e' -> (e <= e')%Z.

Lemma to_expiry_date_raise (e : string) (x : exn) :
  to_expiry_date parse_expiry e = Raise x <->
  x = ValueError /\ e <> EmptyString /\ parse_expiry e = None.
Proof.
  unfold to_expiry_date. destruct e as [|a e].
  - split; [discriminate | intros [_ [H _]]; congruence].
  - destruct (parse_expiry (String a e)) as [t|].
    + split; [discriminate | intros [_ [_ H]]; discriminate].
    + split; [intros H; injection H as <-; repeat split; discriminate
             | intros [-> _]; reflexivity].
Qed.

Lemma with_expiry_date_In (fs : list instrument)
  (dated : list (instrument * option Z)) :
  with_expiry_date parse_expiry fs = Return dated ->
  forall p, In p dated <->
            In (fst p) fs /\
            to_expiry_date parse_expiry (i_expiry (fst p)) = Return (snd p).
Proof.
  revert dated. induction fs as [|i fs IH]; simpl; intros dated H p.
  - injection H as <-. simpl. tauto.
  - destruct (to_expiry_date parse_expiry (i_expiry i)) as [d|x] eqn:Ed;
      [|discriminate]. cbn [bind] in H.
    destruct (with_expiry_date parse_expiry fs) as [ds|x]; [|discriminate].
    cbn [bind] in H. injection H as <-. simpl. rewrite (IH ds eq_refl p).
    split.
    + intros [<-|[H1 H2]]; simpl; [split; [left; reflexivity | exact Ed]|].
      split; [right; exact H1 | exact H2].
    + intros [[->|H1] H2]; [left | right; split; assumption].
      destruct p as [f d']. simpl in *. congruence.
Qed.

Lemma with_expiry_date_raise (fs : list instrument) (x : exn) :
  with_expiry_date parse_expiry fs = Raise x <->
  x = ValueError /\
  exists f, In f fs /\ i_expiry f <> EmptyString /\
            parse_expiry (i_expiry f) = None.
Proof.
  revert x. induction fs as [|i fs IH]; intros x; simpl.
  - split; [discriminate | intros [_ [f [[] _]]]].
  - destruct (to_expiry_date parse_expiry (i_expiry i)) as [d|y] eqn:Ed.
    + cbn [bind].
      assert (Hi : ~ (i_expiry i <> EmptyString /\ parse_expiry (i_expiry i) = None)).
      { intros [H1 H2].
        assert (R : to_expiry_date parse_expiry (i_expiry i) = Raise ValueError)
          by (apply to_expiry_date_raise; auto).
        congruence. }
      destruct (with_expiry_date parse_expiry fs) as [ds|y]; cbn [bind].
      * split; [discriminate|]. intros [_ [f [[<-|Hin] Hf]]]; [tauto|].
        destruct (IH ValueError) as [_ IH']. discriminate IH'.
        split; [reflexivity|]. exists f. split; assumption.
      * destruct (IH y) as [IH' _]. destruct (IH' eq_refl) as [-> [f [Hin Hf]]].
        split.
        -- intros H. injection H as <-. split; [reflexivity|].
           exists f. split; [right; exact Hin | exact Hf].
        -- intros [-> _]. reflexivity.
    + cbn [bind]. apply to_expiry_date_raise in Ed. destruct Ed as [-> Hi].
      split.
      * intros H. injection H as <-. split; [reflexivity|].
        exists i. split; [left; reflexivity | exact Hi].
      * intros [-> _]. reflexivity.
Qed.

Lemma earliest_spec (l : list (instrument * option Z)) :
  match earliest l with
  | Some n => (exists i, In (i, Some n) l) /\
              forall i t, In (i, Some t) l -> (n <= t)%Z
  | None => forall i t, ~ In (i, Some t) l
  end.
Proof.
  induction l as [|[i [t|]] l IH]; simpl.
  - intros i t [].
  - destruct (earliest l) as [u|].
    + destruct IH as [[j Hj] Hmin]. split.
      * destruct (Z.min_spec t u) as [[_ ->]|[_ ->]];
          [exists i; left; reflexivity | exists j; right; exact Hj].
      * intros k v [E|Hin]; [injection E as _ <-; lia|].
        specialize (Hmin k v Hin). lia.
    + split; [exists i; left; reflexivity|].
      intros k v [E|Hin]; [injection E as _ <-; lia|].
      exfalso. exact (IH k v Hin).
  - destruct (earliest l) as [u|].
    + destruct IH as [[j Hj] Hmin]. split; [exists j; right; exact Hj|].
      intros k v [E|Hin]; [discriminate | exact (Hmin k v Hin)].
    + intros k v [E|Hin]; [discriminate | exact (IH k v Hin)].
Qed.

(** The futures whose names are kept, read off the dated futures. *)
Lemma nearest_In (df : list instrument) (dated : list (instrument * option Z)) :
  with_expiry_date parse_expiry (filter is_future df) = Return dated ->
  forall f,
    (exists d, In (f, d)
                  (filter (expires_on (earliest (filter (not_expired today) dated)))
                          (filter (not_expired today) dated)))
    <-> nearest_future df f.
Proof.
  intros Hd f. pose proof (with_expiry_date_In _ _ Hd) as Hin.
  assert (Hcur : forall g d,
            In (g, d) (filter (not_expired today) dated) <->
            exists e, d = Some e /\ current_future df g e).
  { intros g d. rewrite filter_In, Hin, filter_In. unfold not_expired.
    cbn [fst snd]. split.
    - intros [[[H1 H2] H3] H4]. destruct d as [e|]; [|discriminate].
      exists e. split; [reflexivity|]. apply Z.leb_le in H4.
      repeat split; assumption.
    - intros [e [-> [H1 [H2 [H3 H4]]]]]. apply Z.leb_le in H4.
      repeat split; assumption. }
  pose proof (earliest_spec (filter (not_expired today) dated)) as Hmin.
  split.
  - intros [d H]. apply filter_In in H. destruct H as [H1 H2].
    apply Hcur in H1. destruct H1 as [e [-> Hf]].
    unfold expires_on in H2. cbn [snd] in H2.
    destruct (earliest (filter (not_expired today) dated)) as [n|]; [|discriminate].
    apply Z.eqb_eq in H2. subst n. destruct Hmin as [_ Hmin].
    exists e. split; [exact Hf|]. intros g e' Hg. apply (Hmin g e').
    apply Hcur. exists e'. split; [reflexivity | exact Hg].
  - intros [e [Hf Hleast]]. exists (Some e). apply filter_In.
    assert (Hfe : In (f, Some e) (filter (not_expired today) dated))
      by (apply Hcur; exists e; split; [reflexivity | exact Hf]).
    split; [exact Hfe|]. unfold expires_on. cbn [snd].
    destruct (earliest (filter (not_expired today) dated)) as [n|].
    + destruct Hmin as [[j Hj] Hmin]. apply Z.eqb_eq.
      pose proof (Hmin f e Hfe) as H1.
      apply Hcur in Hj. destruct Hj as [e' [E Hj]]. injection E as <-.
      pose proof (Hleast j n Hj). lia.
    + exfalso. exact (Hmin f e Hfe).
Qed.

(** X13 -- The rows written for the scan are exactly the NSE rows of
    the master whose symbol is the name of a stock future followed by
    "-EQ", for the futures that expire first among those not yet expired
    at the moment of the run (a future that expired earlier the same day
    is expired).  They are written as token, symbol and name, in the
    order of the master.  With no future left, nothing is written. *)
Theorem prepared_rows_are_nearest_expiry_equities (df : list instrument)
  (out : list (string * string * string)) :
  prepare_stocks_to_scan parse_expiry today df = Return out ->
  (forall row,
     In row out <->
     exists i f,
       In i df /\ i_exch_seg i = "NSE"%string /\ nearest_future df f /\
       i_symbol i = (i_name f ++ "-EQ")%string /\
       row = (i_token i, i_symbol i, i_name i)) /\
  subsequence out (map (fun i => (i_token i, i_symbol i, i_name i)) df) /\
  ((forall f e, ~ current_future df f e) -> out = []).
Proof.
  unfold prepare_stocks_to_scan.
  destruct (with_expiry_date parse_expiry (filter is_future df)) as [dated|x] eqn:Hd;
    [|discriminate].
  cbn [bind]. intros H. injection H as <-.
  pose proof (nearest_In df dated Hd) as Hnear.
  set (nearest := filter _ (filter (not_expired today) dated)) in *.
  assert (Hrow : forall row,
     In row (map (fun i => (i_token i, i_symbol i, i_name i))
               (filter (fun i => String.eqb (i_exch_seg i) "NSE" &&
                  existsb (String.eqb (i_symbol i))
                    (map (fun name => (name ++ "-EQ")%string)
                       (unique (map (fun p => i_name (fst p)) nearest)))) df))
     <->
     exists i f,
       In i df /\ i_exch_seg i = "NSE"%string /\ nearest_future df f /\
       i_symbol i = (i_name f ++ "-EQ")%string /\
       row = (i_token i, i_symbol i, i_name i)).
  { intros row. rewrite in_map_iff. split.
    - intros [i [<- Hi]]. apply filter_In in Hi. destruct Hi as [Hi Hb].
      apply andb_true_iff in Hb. destruct Hb as [Hnse Hsym].
      apply String.eqb_eq in Hnse. apply existsb_eqb_In in Hsym.
      apply in_map_iff in Hsym. destruct Hsym as [name [Hname Hu]].
      apply (proj1 (unique_In _ _)) in Hu. apply in_map_iff in Hu.
      destruct Hu as [[f d] [Hf Hp]]. cbn [fst] in Hf.
      exists i, f. split; [exact Hi|]. split; [exact Hnse|].
      split; [apply Hnear; exists d; exact Hp|].
      split; [rewrite Hf; symmetry; exact Hname | reflexivity].
    - intros [i [f [Hi [Hnse [Hf [Hsym ->]]]]]]. exists i.
      split; [reflexivity|]. apply filter_In. split; [exact Hi|].
      apply andb_true_iff. split; [apply String.eqb_eq; exact Hnse|].
      apply existsb_eqb_In. apply in_map_iff. exists (i_name f).
      split; [symmetry; exact Hsym|]. apply (proj2 (unique_In _ _)).
      apply in_map_iff.
      apply Hnear in Hf. destruct Hf as [d Hd'].
      exists (f, d). split; [reflexivity | exact Hd']. }
  split; [exact Hrow|]. split.
  - apply subsequence_map_filter.
  - intros Hnone.
    match goal with |- ?l = [] =>
      assert (Hno : forall row, ~ In row l)
    end.
    { intros row Hin. apply Hrow in Hin.
      destruct Hin as [i [f [_ [_ [[e [Hf _]] _]]]]]. exact (Hnone f e Hf). }
    clear Hrow.
    match goal with |- ?l = [] => destruct l as [|row rest] end;
      [reflexivity|].
    exfalso. apply (Hno row). left. reflexivity.
Qed.

(** X14 -- Preparing the list fails exactly when a stock future of the
    master has an expiry text that is not empty and does not parse, and
    then with ValueError; the expiry of any other instrument is never
    looked at. *)
Theorem prepare_fails_on_unreadable_future_expiry (df : list instrument) :
  (forall x, prepare_stocks_to_scan parse_expiry today df = Raise x ->
             x = ValueError) /\
  ((exists x, prepare_stocks_to_scan parse_expiry today df = Raise x) <->
   exists f, In f df /\ is_future f = true /\
             i_expiry f <> EmptyString /\ parse_expiry (i_expiry f) = None).
Proof.
  unfold prepare_stocks_to_scan.
  pose proof (with_expiry_date_raise (filter is_future df)) as Hr.
  destruct (with_expiry_date parse_expiry (filter is_future df)) as [dated|x];
    cbn [bind].
  - split; [intros x H; discriminate|]. split.
    + intros [x H]. discriminate.
    + intros [f [Hin [Hfut Hbad]]]. exfalso.
      destruct (Hr ValueError) as [_ Hr']. discriminate Hr'.
      split; [reflexivity|]. exists f. split; [|exact Hbad].
      apply filter_In. split; assumption.
  - destruct (Hr x) as [Hr' _]. destruct (Hr' eq_refl) as [-> [f [Hin Hbad]]].
    apply filter_In in Hin. destruct Hin as [Hin Hfut].
    split; [intros y H; injection H as <-; reflexivity|]. split.
    + intros _. exists f. repeat split; try assumption; apply Hbad.
    + intros _. exists ValueError. reflexivity.
Qed.

(** X15 -- Every symbol written for the scan can be looked up in the
    same master: the lookup never answers None for it. *)
Theorem prepared_symbols_resolve (df : list instrument)
  (out : list (string * string * string)) :
  prepare_stocks_to_scan parse_expiry today df = Return out ->
  forall t s n, In (t, s, n) out -> exists t', lookup_frame df s = Some t'.
Proof.
  unfold prepare_stocks_to_scan.
  destruct (with_expiry_date parse_expiry (filter is_future df)) as [dated|x];
    [|discriminate].
  cbn [bind]. intros H. injection H as <-. intros t s n Hin.
  apply in_map_iff in Hin. destruct Hin as [i [E Hi]].
  injection E as _ <- _. apply filter_In in Hi. destruct Hi as [Hi _].
  rewrite lookup_frame_list.
  destruct (lookup_list df (i_symbol i)) as [t'|] eqn:El; [exists t'; reflexivity|].
  exfalso. unfold lookup_list in El.
  destruct (find (fun j => String.eqb (i_symbol j) (i_symbol i)) df) as [j|] eqn:Ef;
    [discriminate|].
  apply (find_none _ _ Ef) in Hi. rewrite String.eqb_refl in Hi. discriminate.
Qed.

End PrepareFacts.

(** * The summary of main *)

Lemma filter_complement_length (A : Type) (p q : A -> bool) (l : list A) :
  (forall x, In x l -> p x = negb (q x)) ->
  (length (filter p l) + length (filter q l) = length l)%nat.
Proof.
  induction l as [|a l IH]; intros H; simpl; [reflexivity|].
  assert (IH' : (length (filter p l) + length (filter q l) = length l)%nat)
    by (apply IH; intros x Hx; apply H; right; exact Hx).
  rewrite (H a (or_introl eq_refl)). destruct (q a); simpl; lia.
Qed.

Section Summary.
Context {PD : Pandas} {AR : Arith} {BR : Broker}.

(** X16 -- The two lists main reports split the result of a scan: every
    record is counted either as a full breakout or as a partial one,
    never as both and never as neither, so the two counts add up to the
    number of records. *)
Theorem summary_splits_the_result (symbols : list string) (w : World)
  (stocks : list stock) (s : ScanState) :
  scan_for_breakouts symbols w = (Return stocks, s) ->
  (length (full_breakouts stocks) + length (partial_breakouts stocks)
   = length stocks)%nat /\
  (forall d, In d stocks ->
     (In d (full_breakouts stocks) <-> stock_breakout_type d = FullBreakout) /\
     (In d (partial_breakouts stocks) <->
        stock_breakout_type d = PartialBreakoutLowVolume \/
        stock_breakout_type d = PartialBreakoutSmallSize) /\
     (In d (full_breakouts stocks) <-> ~ In d (partial_breakouts stocks))).
Proof.
  unfold scan_for_breakouts.
  destruct (scan_loop_returns symbols (init w)) as (s' & added & E & Hb & Hg & _).
  rewrite E. intros H. injection H as <- <-. rewrite Hb. simpl.
  assert (Hcat : forall d, In d added ->
            stock_breakout_type d = FullBreakout \/
            stock_breakout_type d = PartialBreakoutLowVolume \/
            stock_breakout_type d = PartialBreakoutSmallSize).
  { intros d Hd. rewrite Forall_forall in Hg.
    destruct (Hg d Hd) as [_ [_ [df [_ Hv]]]].
    apply (breakout_answer _ _ _ _ Hv). }
  split.
  - unfold full_breakouts, partial_breakouts. apply filter_complement_length.
    intros d Hd. destruct (Hcat d Hd) as [-> | [-> | ->]]; reflexivity.
  - intros d Hd. unfold full_breakouts, partial_breakouts.
    rewrite !filter_In.
    destruct (Hcat d Hd) as [C | [C | C]]; rewrite C.
    + change (String.eqb FullBreakout "Full Breakout") with true.
      change (String.prefix "Partial Breakout" FullBreakout) with false.
      intuition (try discriminate).
    + change (String.eqb PartialBreakoutLowVolume "Full Breakout") with false.
      change (String.prefix "Partial Breakout" PartialBreakoutLowVolume) with true.
      intuition (try discriminate).
    + change (String.eqb PartialBreakoutSmallSize "Full Breakout") with false.
      change (String.prefix "Partial Breakout" PartialBreakoutSmallSize) with true.
      intuition (try discriminate).
Qed.

End Summary.

(** * The further properties at concrete inputs *)

(** The master lists SBIN-EQ on BSE before NSE: the row written for the
    scan carries the NSE token, the lookup answers with the BSE one. *)
Example lookup_may_pick_another_exchange :
  prepare_stocks_to_scan compact_expiry run_time master =
    Return [("3045"%string, "SBIN-EQ"%string, "SBIN"%string)] /\
  lookup_frame master "SBIN-EQ" = Some "500112"%string.
Proof. split; vm_compute; reflexivity. Qed.

(** A future that expired at midnight is no longer current at 10:30 of
    the same day: the next expiry is taken. *)
Example expiry_day_is_too_late :
  nearest_future compact_expiry 202411281030 master sbin_next_future /\
  ~ nearest_future compact_expiry 202411281030 master sbin_future.
Proof.
  split.
  - exists 202412260000%Z. split.
    + repeat split; [simpl; tauto | vm_compute; discriminate].
    + intros g e' [Hin [Hfut [He Hle]]].
      simpl in Hin.
      destruct Hin as [<-|[<-|[<-|[<-|[<-|[<-|[]]]]]]]; try discriminate;
        vm_compute in He; injection He as <-; lia.
  - intros [e [[_ [_ [He Hle]]] _]]. vm_compute in He. injection He as <-. lia.
Qed.

Lemma verdict_flag_category_details_witness :
  (true = false /\ verdict_details (fst (identify_breakout scenario_a 20)) = None /\
   ((FullBreakout = InsufficientData /\
     (Z.of_nat (length scenario_a) < 20)%Z) \/
    (FullBreakout = NoBreakout /\ (20 <= Z.of_nat (length scenario_a))%Z /\
     (2 <= length scenario_a)%nat))) \/
  (true = true /\
   (exists m, verdict_details (fst (identify_breakout scenario_a 20)) = Some m) /\
   (FullBreakout = FullBreakout \/ FullBreakout = PartialBreakoutLowVolume \/
    FullBreakout = PartialBreakoutSmallSize) /\
   (20 <= Z.of_nat (length scenario_a))%Z /\ (2 <= length scenario_a)%nat).
Proof.
  apply (@verdict_flag_category_details compact_pandas exact_arith scenario_a 20 true
           FullBreakout (verdict_details (fst (identify_breakout scenario_a 20)))).
  vm_compute. reflexivity.
Defined.

Definition size_equals_atr_metrics : metrics :=
  mkMetrics 20 (Some 10) (Some 10) (Some 10) 100
            (Some (agg_mean [inject_Z 100; inject_Z 100])).

Lemma breakout_details_are_consistent_witness :
  current_close_at size_equals_atr =
    Return (current_close size_equals_atr_metrics) /\
  current_volume_at size_equals_atr =
    Return (current_volume size_equals_atr_metrics) /\
  previous_high size_equals_atr_metrics =
    Some (agg_max (previous_highs size_equals_atr 2)) /\
  agg_max (previous_highs size_equals_atr 2) <
    current_close size_equals_atr_metrics /\
  breakout_size size_equals_atr_metrics =
    Some (f_sub (current_close size_equals_atr_metrics)
                (agg_max (previous_highs size_equals_atr 2))) /\
  avg_volume_at size_equals_atr 2 =
    Return (avg_volume size_equals_atr_metrics) /\
  atr_at size_equals_atr = Return (atr size_equals_atr_metrics) /\
  exists a, atr size_equals_atr_metrics = Some a.
Proof.
  apply (@breakout_details_are_consistent compact_pandas exact_arith
           size_equals_atr size_equals_atr 2
           PartialBreakoutSmallSize size_equals_atr_metrics).
  - vm_compute. reflexivity.
  - vm_compute. reflexivity.
Defined.

Lemma breakout_iff_close_above_previous_highs_witness :
  ((exists category m,
      fst (identify_breakout scenario_a 20) = Return (true, category, Some m))
   <-> Forall (fun h => h < 150) (previous_highs scenario_a 20)) /\
  (fst (identify_breakout scenario_a 20) = Return (false, NoBreakout, None)
   <-> Exists (fun h => 150 <= h) (previous_highs scenario_a 20)).
Proof.
  apply (@breakout_iff_close_above_previous_highs compact_pandas exact_arith
           scenario_a scenario_a 20 150).
  - lia.
  - vm_compute. discriminate.
  - simpl. lia.
  - vm_compute. reflexivity.
  - vm_compute. reflexivity.
Defined.

Lemma identify_breakout_failures_witness :
  fst (identify_breakout two_candles 0) = Raise ValueError.
Proof.
  apply (proj2 (proj1 (proj2
           (@identify_breakout_failures compact_pandas exact_arith two_candles 0)))).
  right. split; [lia | vm_compute; discriminate].
Defined.

Lemma result_follows_symbol_order_witness :
  subsequence (map stock_symbol (breakout_stocks (snd flaky_run)))
              ["SBIN-EQ"%string] /\
  (length (breakout_stocks (snd flaky_run)) <= length ["SBIN-EQ"%string])%nat.
Proof.
  apply (@result_follows_symbol_order compact_pandas exact_arith scripted_broker
           ["SBIN-EQ"%string] flaky
           (breakout_stocks (snd flaky_run)) (snd flaky_run)).
  vm_compute. reflexivity.
Defined.

Lemma unknown_symbols_are_passed_over_witness :
  scan_for_breakouts (BR := angel_one steady_api)
    ["TCS-EQ"%string; "INFY-EQ"%string] tt =
    (Return [],
     mkScan (BR := angel_one steady_api) tt [] 1
            (repeat (Sleep 1) (length ["TCS-EQ"%string; "INFY-EQ"%string]))).
Proof.
  apply (@unknown_symbols_are_passed_over compact_pandas exact_arith (angel_one steady_api)).
  intros x [<-|[<-|[]]]; reflexivity.
Defined.

Lemma unreadable_data_is_fetched_again_witness :
  scan_symbol "SBIN-EQ" (init garbled) =
    (Return tt,
     mkScan [] (breakout_stocks (init garbled)) (delay (init garbled) * 8)
       (trace (init garbled) ++
        [Fetch "SBIN-EQ"; Sleep (delay (init garbled) * 2);
         Fetch "SBIN-EQ"; Sleep (delay (init garbled) * 4);
         Fetch "SBIN-EQ"; Sleep (delay (init garbled) * 8);
         Sleep (delay (init garbled) * 8)])).
Proof.
  apply (proj1 (@unreadable_data_is_fetched_again compact_pandas exact_arith scripted_broker)
           "SBIN-EQ"%string "SBIN-EQ"%string (init garbled)
           (Return (Some unreadable)) (Return (Some unreadable))
           (Return (Some unreadable))
           [Return (Some unreadable); Return (Some unreadable)]
           [Return (Some unreadable)] []).
  - reflexivity.
  - reflexivity.
  - split; [discriminate | exists ValueError; vm_compute; reflexivity].
  - reflexivity.
  - split; [discriminate | exists ValueError; vm_compute; reflexivity].
  - reflexivity.
  - split; [discriminate | exists ValueError; vm_compute; reflexivity].
Defined.

Lemma steady_rows_parse :
  forall tok n rows n',
    getCandleData (SmartApi := steady_api) tok n = (Return (Data rows), n') ->
    parse_rows rows <> None.
Proof.
  intros tok n rows n' H. cbn in H. injection H as <- _.
  vm_compute. discriminate.
Defined.

Lemma angel_one_scan_never_backs_off_witness :
  exists stocks s',
    scan_for_breakouts (BR := angel_one steady_api)
      ["SBIN-EQ"%string; "TCS-EQ"%string] tt = (Return stocks, s') /\
    delay s' = 1%Z /\
    sleeps (trace s') = repeat 1%Z (length ["SBIN-EQ"%string; "TCS-EQ"%string]) /\
    (fetches (trace s') <= length ["SBIN-EQ"%string; "TCS-EQ"%string])%nat.
Proof.
  apply (@angel_one_scan_never_backs_off compact_pandas exact_arith steady_api
           steady_rows_parse).
Defined.

Lemma download_is_cached_for_the_day_witness :
  fetch_instruments 20241105 (mkHttp 200 master) fresh_manager =
    mkIM (Some (AsList master)) (Some (read_back master, 20241105%Z))
         (Some (master, 20241105%Z)) 1 /\
  fetch_instruments 20241105 (mkHttp 500 [])
    (fetch_instruments 20241105 (mkHttp 200 master) fresh_manager) =
    mkIM (Some (AsFrame (read_back master))) (Some (read_back master, 20241105%Z))
         (Some (master, 20241105%Z)) 1 /\
  (forall symbol,
     fst (get_symbol_token_im symbol
            (fetch_instruments 20241105 (mkHttp 200 master) fresh_manager)) =
       lookup_list master symbol /\
     fst (get_symbol_token_im symbol
            (fetch_instruments 20241105 (mkHttp 500 [])
               (fetch_instruments 20241105 (mkHttp 200 master) fresh_manager))) =
       lookup_frame (read_back master) symbol) /\
  (forall later, (20241105 < later)%Z ->
     im_requests
       (fetch_instruments later (mkHttp 500 [])
          (fetch_instruments 20241105 (mkHttp 200 master) fresh_manager)) = 2%nat).
Proof.
  apply (@download_is_cached_for_the_day verbatim_csv 20241105
           (mkHttp 200 master) (mkHttp 500 []) fresh_manager); reflexivity.
Defined.

Lemma refused_download_falls_back_on_cache_witness :
  fetch_instruments 20241105 (mkHttp 503 []) fresh_manager = mkIM None None None 1 /\
  forall symbol,
    fst (get_symbol_token_im symbol
           (fetch_instruments 20241105 (mkHttp 503 []) fresh_manager)) = None.
Proof.
  apply (@refused_download_falls_back_on_cache verbatim_csv 20241105
           (mkHttp 503 []) fresh_manager).
  - reflexivity.
  - discriminate.
  - reflexivity.
Defined.

Lemma prepared_rows_are_nearest_expiry_equities_witness :
  (forall row,
     In row [("3045"%string, "SBIN-EQ"%string, "SBIN"%string)] <->
     exists i f,
       In i master /\ i_exch_seg i = "NSE"%string /\
       nearest_future compact_expiry run_time master f /\
       i_symbol i = (i_name f ++ "-EQ")%string /\
       row = (i_token i, i_symbol i, i_name i)) /\
  subsequence [("3045"%string, "SBIN-EQ"%string, "SBIN"%string)]
              (map (fun i => (i_token i, i_symbol i, i_name i)) master) /\
  ((forall f e, ~ current_future compact_expiry run_time master f e) ->
   [("3045"%string, "SBIN-EQ"%string, "SBIN"%string)] = []).
Proof.
  apply (prepared_rows_are_nearest_expiry_equities compact_expiry run_time master).
  vm_compute. reflexivity.
Defined.

Lemma prepare_fails_on_unreadable_future_expiry_witness :
  exists x,
    prepare_stocks_to_scan compact_expiry run_time
      [mkInstrument "52003" "SBIN??FUT" "SBIN" "28NOV2024" "NFO" "FUTSTK"] = Raise x.
Proof.
  apply (proj2 (proj2 (prepare_fails_on_unreadable_future_expiry
           compact_expiry run_time
           [mkInstrument "52003" "SBIN??FUT" "SBIN" "28NOV2024" "NFO" "FUTSTK"]))).
  eexists. split; [left; reflexivity|].
  split; [reflexivity|]. split; [discriminate | vm_compute; reflexivity].
Defined.

Lemma prepared_symbols_resolve_witness :
  exists t', lookup_frame master "SBIN-EQ" = Some t'.
Proof.
  apply (prepared_symbols_resolve compact_expiry run_time master
           [("3045"%string, "SBIN-EQ"%string, "SBIN"%string)]
           (eq_refl : prepare_stocks_to_scan compact_expiry run_time master = _)
           "3045"%string "SBIN-EQ"%string "SBIN"%string).
  left. reflexivity.
Defined.

Lemma summary_splits_the_result_witness :
  (length (full_breakouts (breakout_stocks (snd flaky_run))) +
   length (partial_breakouts (breakout_stocks (snd flaky_run)))
   = length (breakout_stocks (snd flaky_run)))%nat /\
  (forall d, In d (breakout_stocks (snd flaky_run)) ->
     (In d (full_breakouts (breakout_stocks (snd flaky_run))) <->
        stock_breakout_type d = FullBreakout) /\
     (In d (partial_breakouts (breakout_stocks (snd flaky_run))) <->
        stock_breakout_type d = PartialBreakoutLowVolume \/
        stock_breakout_type d = PartialBreakoutSmallSize) /\
     (In d (full_breakouts (breakout_stocks (snd flaky_run))) <->
        ~ In d (partial_breakouts (breakout_stocks (snd flaky_run))))).
Proof.
  apply (@summary_splits_the_result compact_pandas exact_arith scripted_broker
           ["SBIN-EQ"%string] flaky
           (breakout_stocks (snd flaky_run)) (snd flaky_run)).
  vm_compute. reflexivity.
Defined.

(** * Counting sleeps *)

Section SleepCount.
Context {PD : Pandas} {AR : Arith} {BR : Broker}.

(** [k] failed attempts and [n] finished symbols lead from [s] to [s']. *)
Definition accounts (n k : nat) (s s' : ScanState) : Prop :=
  exists evs,
    trace s' = trace s ++ evs /\
    delay s' = (delay s * 2 ^ Z.of_nat k)%Z /\
    length (sleeps evs) = (n + k)%nat /\
    (k <= fetches evs)%nat.

Lemma accounts_trans (n1 k1 n2 k2 : nat) (s s' s'' : ScanState) :
  accounts n1 k1 s s' -> accounts n2 k2 s' s'' ->
  accounts (n1 + n2) (k1 + k2) s s''.
Proof.
  intros (e1 & Ht1 & Hd1 & Hs1 & Hf1) (e2 & Ht2 & Hd2 & Hs2 & Hf2).
  exists (e1 ++ e2).
  split; [rewrite Ht2, Ht1, app_assoc; reflexivity|].
  split; [rewrite Hd2, Hd1, Nat2Z.inj_add, Z.pow_add_r by lia; ring|].
  split; [rewrite sleeps_app, length_app; lia|].
  rewrite fetches_app. lia.
Qed.

Lemma retry_accounts (n : nat) (symbol token : string) (s : ScanState) :
  exists s' k, retry n symbol token s = (Return tt, s') /\ accounts 0 k s s'.
Proof.
  revert s. induction n as [|n IH]; intros s; simpl.
  - exists s, 0%nat. split; [reflexivity|]. exists [].
    rewrite app_nil_r. cbn. repeat split; lia.
  - unfold bindM. rewrite attempt_run.
    assert (Hfail : forall w,
      exists s' k, retry n symbol token (failed token w s) = (Return tt, s') /\
                   accounts 0 k s s').
    { intros w. destruct (IH (failed token w s)) as (s' & k & E & Hacc).
      exists s', (1 + k)%nat. split; [exact E|].
      apply (accounts_trans 0 1 0 k s (failed token w s) s'); [|exact Hacc].
      exists [Fetch token; Sleep (delay s * 2)]. cbn. repeat split; lia. }
    assert (Hok : forall w added,
      exists s' k, ret tt (fetched token w added s) = (Return tt, s') /\
                   accounts 0 k s s').
    { intros w added. eexists. exists 0%nat. split; [reflexivity|].
      exists [Fetch token]. cbn. repeat split; lia. }
    destruct (get_historical_data token (world s)) as [[[[|c df]|]|e] w]; auto.
    destruct (fst (identify_breakout (c :: df) 20)) as [[[[|] cat] det]|e]; auto.
Qed.

Lemma scan_symbol_accounts (symbol : string) (s : ScanState) :
  exists s' k, scan_symbol symbol s = (Return tt, s') /\ accounts 1 k s s'.
Proof.
  unfold scan_symbol, bindM.
  assert (Hsleep : forall s1, accounts 1 0 s1 (snd (sleep_delay s1))).
  { intros s1. exists [Sleep (delay s1)]. cbn. repeat split; lia. }
  destruct (get_symbol_token symbol) as [token|].
  - destruct (retry_accounts 3 symbol token s) as (s1 & k & E & Hacc).
    rewrite E. eexists. exists k. split; [reflexivity|].
    replace k with (k + 0)%nat by lia.
    apply (accounts_trans 0 k 1 0 s s1 _ Hacc (Hsleep s1)).
  - eexists. exists 0%nat. split; [reflexivity|]. apply (Hsleep s).
Qed.

Lemma scan_loop_accounts (symbols : list string) (s : ScanState) :
  exists s' k, scan_loop symbols s = (Return tt, s') /\
               accounts (length symbols) k s s'.
Proof.
  revert s. induction symbols as [|symbol rest IH]; intros s; simpl.
  - exists s, 0%nat. split; [reflexivity|]. exists [].
    rewrite app_nil_r. cbn. repeat split; lia.
  - unfold bindM.
    destruct (scan_symbol_accounts symbol s) as (s1 & k1 & E1 & H1).
    rewrite E1. destruct (IH s1) as (s2 & k2 & E2 & H2).
    exists s2, (k1 + k2)%nat. split; [exact E2|].
    apply (accounts_trans 1 k1 (length rest) k2 s s1 s2 H1 H2).
Qed.

(** X17 -- The delay a scan ends with counts its failed attempts: it is
    2 to the power of their number [k], the scan has slept exactly once
    for each symbol and once more for each failed attempt, and each
    failed attempt had made a request. *)
Theorem delay_counts_failed_attempts (symbols : list string) (w : World) :
  exists stocks s' k,
    scan_for_breakouts symbols w = (Return stocks, s') /\
    delay s' = (2 ^ Z.of_nat k)%Z /\
    length (sleeps (trace s')) = (length symbols + k)%nat /\
    (k <= fetches (trace s'))%nat.
Proof.
  unfold scan_for_breakouts.
  destruct (scan_loop_accounts symbols (init w))
    as (s' & k & E & evs & Ht & Hd & Hs & Hf).
  rewrite E. eexists. exists s', k. split; [reflexivity|].
  cbn [init trace delay app] in Ht, Hd. rewrite Ht.
  split; [rewrite Hd; apply Z.mul_1_l|].
  split; assumption.
Qed.

End SleepCount.
